(** * llama-jni.cpp: the JNI bridge between the Kotlin engine and llama.cpp

    A shallow embedding of [app/src/main/cpp/llama-jni.cpp].  The bridge owns
    one global record, [g_llama], and drives the native inference library
    through the C interface of [llama.h].  The library itself is not part of
    the bridge: it is taken as a parameter (class [LlamaLib]) and its mutable
    process state is an abstract [world].  Every call that may read or change
    that state threads it and is recorded, with what it returned, in an event
    list; so is the tokenization of the prompt.  The [const] accessors
    ([llama_get_memory], [llama_n_ctx], [llama_model_get_vocab]) and the
    vocabulary queries are functions of their handle and leave no event.  All
    five JNI entry points are state transformers over [g_llama] and the
    library's [world].

    Conventions.
    - A C pointer is an [option]: [None] is [nullptr].
    - [jint] and [int] are [Z]; [std::string] is [string];
      [std::string::find] is [String.index 0] and [substr(0, pos)] is
      [String.substring 0 pos].
    - A [jstring] carries its text; a null [jstring] is [None].  Coming in,
      [GetStringUTFChars] hands the text over as it is.  Going out,
      [NewStringUTF(str.c_str())] reads a C string, so it carries the text
      only up to its first NUL byte.
    - The [LOGI]/[LOGE] macros only write to the Android log and are left
      out. *)

From Stdlib Require Import ZArith List String Ascii Bool Lia.
Import ListNotations.
Open Scope Z_scope.

(** ** Tokens and parameter blocks *)

Definition llama_token := Z.

(** [llama_context_params]: the three fields the bridge assigns, and the
    remaining fields, kept at whatever [llama_context_default_params] gives. *)
Record llama_context_params (R : Type) : Type := mk_context_params {
  n_ctx : Z;
  n_threads : Z;
  n_threads_batch : Z;
  cparams_rest : R
}.
Arguments mk_context_params {R} _ _ _ _.
Arguments n_ctx {R} _.
Arguments n_threads {R} _.
Arguments n_threads_batch {R} _.
Arguments cparams_rest {R} _.

(** Conversion to [uint32_t] (the type of [n_ctx]) and to [int32_t]. *)
Definition to_uint32 (z : Z) : Z := z mod 2 ^ 32.
Definition to_int32 (z : Z) : Z := (z + 2 ^ 31) mod 2 ^ 32 - 2 ^ 31.

(** ** The native library, as the bridge sees it through [llama.h] *)

Class LlamaLib : Type := {
  (* what the opaque pointers point to *)
  llama_model : Type;
  llama_context : Type;
  llama_vocab : Type;
  llama_memory_t : Type;
  llama_sampler : Type;
  (* parameter blocks *)
  llama_model_params : Type;
  llama_context_rest : Type;
  llama_sampler_chain_params : Type;
  jfloat : Type;
  (* the mutable state of the library: heap objects, KV caches, RNGs *)
  world : Type;

  LLAMA_DEFAULT_SEED : Z;
  llama_model_default_params : llama_model_params;
  llama_context_default_params : llama_context_params llama_context_rest;
  llama_sampler_chain_default_params : llama_sampler_chain_params;

  llama_backend_init : world -> world;
  llama_backend_free : world -> world;
  llama_model_load_from_file :
    string -> llama_model_params -> world -> option llama_model * world;
  llama_model_free : llama_model -> world -> world;
  llama_model_get_vocab : llama_model -> option llama_vocab;
  llama_init_from_model :
    llama_model -> llama_context_params llama_context_rest -> world ->
    option llama_context * world;
  llama_free : llama_context -> world -> world;
  llama_get_memory : llama_context -> option llama_memory_t;
  llama_memory_clear : llama_memory_t -> bool -> world -> world;
  (* [uint32_t]; a capacity that fits [int], as [n_prompt_max] needs *)
  llama_n_ctx : llama_context -> nat;

  (* the vocabulary's encoder: the full token sequence of a text *)
  vocab_encode : option llama_vocab -> string -> bool -> bool -> list llama_token;
  llama_vocab_eos : option llama_vocab -> llama_token;
  llama_vocab_is_eog : option llama_vocab -> llama_token -> bool;
  (* returns the byte count (negative on failure) and the buffer it wrote *)
  llama_token_to_piece :
    option llama_vocab -> llama_token -> Z -> Z -> bool -> Z * string;

  (* returns 0 on success *)
  llama_decode : llama_context -> list llama_token -> world -> Z * world;

  llama_sampler_chain_init : llama_sampler_chain_params -> world -> llama_sampler * world;
  llama_sampler_init_temp : jfloat -> world -> llama_sampler * world;
  llama_sampler_init_dist : Z -> world -> llama_sampler * world;
  llama_sampler_chain_add : llama_sampler -> llama_sampler -> world -> world;
  llama_sampler_sample : llama_sampler -> llama_context -> Z -> world -> llama_token * world;
  llama_sampler_free : llama_sampler -> world -> world
}.

(** [jstring]: a Java string reference, possibly null. *)
Definition jstring := option string.

Definition jstring_to_string (jstr : jstring) : string :=
  match jstr with
  | None => ""%string
  | Some chars => chars
  end.

(** [str.c_str()] read as a C string: the bytes before the first NUL. *)
Fixpoint c_str (str : string) : string :=
  match str with
  | EmptyString => EmptyString
  | String a rest => if Ascii.eqb a Ascii.zero then EmptyString else String a (c_str rest)
  end.

(** [env->NewStringUTF(str.c_str())] *)
Definition string_to_jstring (str : string) : jstring := Some (c_str str).


(** The ChatML stop marker the generation loop looks for. *)
Definition stop_marker : string := "<|im_end|>"%string.

Section Bridge.

Context {L : LlamaLib}.

(** Modelled from the spec: [llama_tokenize] belongs to llama.cpp, whose
    sources are not part of the bridge.  Following section 4.2 of the
    specification (the encoder is asked to fill a buffer of [n_tokens_max]
    tokens; when the true token count exceeds it the operation fails rather
    than truncating) and the bridge's own test [n_prompt_tokens < 0], the call
    returns the token count and the tokens when they fit, and the negated
    count with nothing written when they do not. *)
Definition llama_tokenize (v : option llama_vocab) (text : string)
    (n_tokens_max : Z) (add_special parse_special : bool) : Z * list llama_token :=
  let toks := vocab_encode v text add_special parse_special in
  let n := Z.of_nat (List.length toks) in
  if n <=? n_tokens_max then (n, toks) else (- n, []).

(** ** Events: the calls into the library, with their results *)

Inductive event : Type :=
| EvBackendInit
| EvBackendFree
| EvModelLoad (path : string) (p : llama_model_params) (r : option llama_model)
| EvModelFree (m : llama_model)
| EvContextInit (m : llama_model) (p : llama_context_params llama_context_rest)
    (r : option llama_context)
| EvContextFree (c : llama_context)
| EvMemoryClear (mem : llama_memory_t) (data : bool)
| EvTokenize (v : option llama_vocab) (text : string) (n_tokens_max : Z)
    (add_special parse_special : bool) (ret : Z)
| EvDecode (c : llama_context) (batch : list llama_token) (ret : Z)
| EvSamplerChainInit (p : llama_sampler_chain_params) (s : llama_sampler)
| EvSamplerInitTemp (t : jfloat) (s : llama_sampler)
| EvSamplerInitDist (seed : Z) (s : llama_sampler)
| EvSamplerChainAdd (chain s : llama_sampler)
| EvSample (s : llama_sampler) (c : llama_context) (idx : Z) (tok : llama_token)
| EvSamplerFree (s : llama_sampler).

(** ** Global state *)

(** [struct LlamaContext], the type of the global [g_llama]. *)
Record LlamaContext : Type := mk_LlamaContext {
  model : option llama_model;
  ctx : option llama_context;
  vocab : option llama_vocab;
  is_loaded : bool
}.

(** The process state: the global of the bridge and the library's state. *)
Record State : Type := mk_State {
  g_llama : LlamaContext;
  lib : world
}.

(** [static LlamaContext g_llama;] with its default member initialisers. *)
Definition g_llama_init : LlamaContext :=
  {| model := None; ctx := None; vocab := None; is_loaded := false |}.

Definition initial (w : world) : State := {| g_llama := g_llama_init; lib := w |}.

(** ** A state monad that also collects the events of a run *)

Definition M (A : Type) : Type := State -> A * State * list event.

Definition ret {A} (a : A) : M A := fun s => (a, s, []).

Definition bind {A B} (m : M A) (f : A -> M B) : M B :=
  fun s =>
    let '(a, s1, e1) := m s in
    let '(b, s2, e2) := f a s1 in
    (b, s2, e1 ++ e2).

Definition result_of {A} (o : A * State * list event) : A := fst (fst o).
Definition state_of {A} (o : A * State * list event) : State := snd (fst o).
Definition events_of {A} (o : A * State * list event) : list event := snd o.

End Bridge.

Declare Scope bridge_scope.
Delimit Scope bridge_scope with bridge.
Notation "x <- m ;; k" := (bind m (fun x => k))
  (at level 61, m at next level, right associativity) : bridge_scope.
Notation "m ;; k" := (bind m (fun _ => k))
  (at level 61, right associativity) : bridge_scope.
Open Scope bridge_scope.

Section Operations.

Context {L : LlamaLib}.

(** Reads and writes of the fields of [g_llama]. *)
Definition get_g : M LlamaContext := fun s => (g_llama s, s, []).

Definition set_model (m : option llama_model) : M unit := fun s =>
  let g := g_llama s in
  (tt, {| g_llama := {| model := m; ctx := ctx g; vocab := vocab g;
                        is_loaded := is_loaded g |};
          lib := lib s |}, []).

Definition set_ctx (c : option llama_context) : M unit := fun s =>
  let g := g_llama s in
  (tt, {| g_llama := {| model := model g; ctx := c; vocab := vocab g;
                        is_loaded := is_loaded g |};
          lib := lib s |}, []).

Definition set_vocab (v : option llama_vocab) : M unit := fun s =>
  let g := g_llama s in
  (tt, {| g_llama := {| model := model g; ctx := ctx g; vocab := v;
                        is_loaded := is_loaded g |};
          lib := lib s |}, []).

Definition set_is_loaded (b : bool) : M unit := fun s =>
  let g := g_llama s in
  (tt, {| g_llama := {| model := model g; ctx := ctx g; vocab := vocab g;
                        is_loaded := b |};
          lib := lib s |}, []).

(** A library call that only changes the library's state. *)
Definition call_unit (f : world -> world) (e : event) : M unit := fun s =>
  (tt, {| g_llama := g_llama s; lib := f (lib s) |}, [e]).

(** A library call that returns a value; the event records it. *)
Definition call_val {A} (f : world -> A * world) (e : A -> event) : M A := fun s =>
  let '(a, w) := f (lib s) in
  (a, {| g_llama := g_llama s; lib := w |}, [e a]).

Definition do_backend_init : M unit := call_unit llama_backend_init EvBackendInit.
Definition do_backend_free : M unit := call_unit llama_backend_free EvBackendFree.
Definition do_model_load (path : string) (p : llama_model_params) : M (option llama_model) :=
  call_val (llama_model_load_from_file path p) (EvModelLoad path p).
Definition do_model_free (m : llama_model) : M unit :=
  call_unit (llama_model_free m) (EvModelFree m).
Definition do_context_init (m : llama_model) (p : llama_context_params llama_context_rest)
  : M (option llama_context) :=
  call_val (llama_init_from_model m p) (EvContextInit m p).
Definition do_context_free (c : llama_context) : M unit :=
  call_unit (llama_free c) (EvContextFree c).
Definition do_memory_clear (mem : llama_memory_t) (data : bool) : M unit :=
  call_unit (llama_memory_clear mem data) (EvMemoryClear mem data).
Definition do_tokenize (v : option llama_vocab) (text : string) (n_tokens_max : Z)
    (add_special parse_special : bool) : M (Z * list llama_token) := fun s =>
  let r := llama_tokenize v text n_tokens_max add_special parse_special in
  (r, s, [EvTokenize v text n_tokens_max add_special parse_special (fst r)]).
Definition do_decode (c : llama_context) (batch : list llama_token) : M Z :=
  call_val (llama_decode c batch) (EvDecode c batch).
Definition do_sampler_chain_init (p : llama_sampler_chain_params) : M llama_sampler :=
  call_val (llama_sampler_chain_init p) (EvSamplerChainInit p).
Definition do_sampler_init_temp (t : jfloat) : M llama_sampler :=
  call_val (llama_sampler_init_temp t) (EvSamplerInitTemp t).
Definition do_sampler_init_dist (seed : Z) : M llama_sampler :=
  call_val (llama_sampler_init_dist seed) (EvSamplerInitDist seed).
Definition do_sampler_chain_add (chain s : llama_sampler) : M unit :=
  call_unit (llama_sampler_chain_add chain s) (EvSamplerChainAdd chain s).
Definition do_sampler_sample (s : llama_sampler) (c : llama_context) (idx : Z) : M llama_token :=
  call_val (llama_sampler_sample s c idx) (EvSample s c idx).
Definition do_sampler_free (s : llama_sampler) : M unit :=
  call_unit (llama_sampler_free s) (EvSamplerFree s).

(** ** The JNI entry points *)

(** [Java_..._LlamaEngine_nativeInit] *)
Definition nativeInit : M unit := do_backend_init.

(** The release sequence shared by [nativeLoadModel] and [nativeFree]:
    [if (g_llama.ctx) { llama_free(...); g_llama.ctx = nullptr; }] and the
    same for the model. *)
Definition release_ctx : M unit :=
  g <- get_g ;;
  match ctx g with
  | Some c => do_context_free c ;; set_ctx None
  | None => ret tt
  end.

Definition release_model : M unit :=
  g <- get_g ;;
  match model g with
  | Some m => do_model_free m ;; set_model None
  | None => ret tt
  end.

(** [Java_..._LlamaEngine_nativeLoadModel] *)
Definition nativeLoadModel (modelPath : jstring) (nThreads nCtx : Z) : M bool :=
  g <- get_g ;;
  (if is_loaded g
   then release_ctx ;; release_model ;; set_is_loaded false
   else ret tt) ;;
  let path := jstring_to_string modelPath in
  let model_params := llama_model_default_params in
  r <- do_model_load path model_params ;;
  set_model r ;;
  match r with
  | None => ret false
  | Some m =>
      set_vocab (llama_model_get_vocab m) ;;
      let d := llama_context_default_params in
      let ctx_params :=
        {| n_ctx := to_uint32 (to_int32 nCtx);
           n_threads := to_int32 nThreads;
           n_threads_batch := to_int32 nThreads;
           cparams_rest := cparams_rest d |} in
      c <- do_context_init m ctx_params ;;
      set_ctx c ;;
      match c with
      | None => do_model_free m ;; set_model None ;; ret false
      | Some _ => set_is_loaded true ;; ret true
      end
  end.

(** [std::vector<llama_token> prompt_tokens(n_prompt_max)] after the encoder
    has written [toks] at its start, and [prompt_tokens.resize(n)]. *)
Definition fill_buffer (n_prompt_max : Z) (toks : list llama_token) : list llama_token :=
  toks ++ repeat 0 (Z.to_nat n_prompt_max - List.length toks)%nat.

Definition vector_resize (n : Z) (v : list llama_token) : list llama_token :=
  firstn (Z.to_nat n) v ++ repeat 0 (Z.to_nat n - List.length v)%nat.

(** [if (n > 0) result.append(buf, n);] *)
Definition append_piece (result : string) (n : Z) (buf : string) : string :=
  if 0 <? n then (result ++ substring 0 (Z.to_nat n) buf)%string else result.

(** The loop [for (int i = 0; i < max_gen; i++)], by recursion on the number
    [todo] of iterations still allowed ([max_gen - i], none when [max_gen] is
    not positive); every [break] returns the current [result].  [c] and [v]
    are [g_llama.ctx] and [g_llama.vocab], which nothing in the loop writes;
    [buf] is [char buf[256]]. *)
Fixpoint gen_loop (todo : nat) (i : Z) (sampler : llama_sampler)
    (c : llama_context) (v : option llama_vocab) (result : string) : M string :=
  match todo with
  | O => ret result
  | S todo' =>
      new_token <- do_sampler_sample sampler c (-1) ;;
      if llama_vocab_is_eog v new_token then ret result
      else
        let '(n, buf) := llama_token_to_piece v new_token 256 0 true in
        let result := append_piece result n buf in
        match index 0 stop_marker result with
        | Some pos => ret (substring 0 pos result)
        | None =>
            rc <- do_decode c [new_token] ;;
            if rc =? 0
            then gen_loop todo' (i + 1) sampler c v result
            else ret result
        end
  end.

(** [Java_..._LlamaEngine_nativeGenerate] *)
Definition nativeGenerate (prompt : jstring) (maxTokens : Z) (temperature : jfloat)
  : M jstring :=
  g <- get_g ;;
  match is_loaded g, ctx g, model g with
  | true, Some c, Some _ =>
      let prompt_str := jstring_to_string prompt in
      (match llama_get_memory c with
       | Some mem => do_memory_clear mem true
       | None => ret tt
       end) ;;
      let n_prompt_max := Z.of_nat (llama_n_ctx c) in
      tk <- do_tokenize (vocab g) prompt_str n_prompt_max true true ;;
      let n_prompt_tokens := fst tk in
      if n_prompt_tokens <? 0 then ret (string_to_jstring "")
      else
        let prompt_tokens :=
          vector_resize n_prompt_tokens (fill_buffer n_prompt_max (snd tk)) in
        rc <- do_decode c prompt_tokens ;;
        if negb (rc =? 0) then ret (string_to_jstring "")
        else
          sampler <- do_sampler_chain_init llama_sampler_chain_default_params ;;
          st <- do_sampler_init_temp temperature ;;
          do_sampler_chain_add sampler st ;;
          sd <- do_sampler_init_dist LLAMA_DEFAULT_SEED ;;
          do_sampler_chain_add sampler sd ;;
          let eos_token := llama_vocab_eos (vocab g) in
          let max_gen := maxTokens in
          result <- gen_loop (Z.to_nat max_gen) 0 sampler c (vocab g) ""%string ;;
          do_sampler_free sampler ;;
          ret (string_to_jstring result)
  | _, _, _ => ret (string_to_jstring "")
  end.

(** [Java_..._LlamaEngine_nativeIsLoaded] *)
Definition nativeIsLoaded : M bool :=
  g <- get_g ;;
  ret (if is_loaded g then true else false).

(** [Java_..._LlamaEngine_nativeFree] *)
Definition nativeFree : M unit :=
  release_ctx ;; release_model ;; set_is_loaded false ;; do_backend_free.

End Operations.

(** ** Reading a run: the tokens sampled, the decodes issued, the objects alive *)

Section Observations.

Context {L : LlamaLib}.

Definition sampled_of (e : event) : list llama_token :=
  match e with
  | EvSample _ _ _ tok => [tok]
  | _ => []
  end.

(** The tokens returned by [llama_sampler_sample], in order: one per
    iteration of the generation loop, which samples once at its top. *)
Definition sampled (evs : list event) : list llama_token := flat_map sampled_of evs.

Definition decode_of (e : event) : list (list llama_token * Z) :=
  match e with
  | EvDecode _ batch rc => [(batch, rc)]
  | _ => []
  end.

(** The [llama_decode] calls with their return codes, in order: the prefill
    first, then one per loop iteration that reaches its end. *)
Definition decodes (evs : list event) : list (list llama_token * Z) :=
  flat_map decode_of evs.

(** Resource accounting: a successful load or context creation brings one
    object to life, a free ends one. *)
Definition model_delta (e : event) : Z :=
  match e with
  | EvModelLoad _ _ (Some _) => 1
  | EvModelFree _ => -1
  | _ => 0
  end.

Definition context_delta (e : event) : Z :=
  match e with
  | EvContextInit _ _ (Some _) => 1
  | EvContextFree _ => -1
  | _ => 0
  end.

Fixpoint live_models (evs : list event) : Z :=
  match evs with
  | [] => 0
  | e :: evs' => model_delta e + live_models evs'
  end.

Fixpoint live_contexts (evs : list event) : Z :=
  match evs with
  | [] => 0
  | e :: evs' => context_delta e + live_contexts evs'
  end.

(** An event that neither creates nor frees a model or a context. *)
Definition quiet (e : event) : Prop := model_delta e = 0 /\ context_delta e = 0.

(** The text the loop appends for one sampled token. *)
Definition piece_text (v : option llama_vocab) (t : llama_token) : string :=
  let '(n, buf) := llama_token_to_piece v t 256 0 true in
  append_piece ""%string n buf.

Fixpoint pieces (v : option llama_vocab) (ts : list llama_token) : string :=
  match ts with
  | [] => ""%string
  | t :: ts' => (piece_text v t ++ pieces v ts')%string
  end.

(** [p] occurs somewhere in [s]. *)
Definition occurs (p s : string) : Prop :=
  exists pre post, s = (pre ++ p ++ post)%string.


(** The generation loop as a relation between the iterations allowed, the
    text accumulated on entry, the tokens sampled, the incremental decodes
    and the text on exit.  One constructor per way of leaving an iteration. *)
Inductive loop_run (v : option llama_vocab) :
  nat -> string -> list llama_token -> list (list llama_token * Z) -> string -> Prop :=
| run_exhausted acc :
    loop_run v O acc [] [] acc
| run_eog todo acc t :
    llama_vocab_is_eog v t = true ->
    loop_run v (S todo) acc [t] [] acc
| run_marker todo acc t pos :
    llama_vocab_is_eog v t = false ->
    index 0 stop_marker (acc ++ piece_text v t) = Some pos ->
    loop_run v (S todo) acc [t] [] (substring 0 pos (acc ++ piece_text v t))
| run_decode_failed todo acc t rc :
    llama_vocab_is_eog v t = false ->
    index 0 stop_marker (acc ++ piece_text v t) = None ->
    rc <> 0 ->
    loop_run v (S todo) acc [t] [([t], rc)] (acc ++ piece_text v t)
| run_next todo acc t ts ds r :
    llama_vocab_is_eog v t = false ->
    index 0 stop_marker (acc ++ piece_text v t) = None ->
    loop_run v todo (acc ++ piece_text v t) ts ds r ->
    loop_run v (S todo) acc (t :: ts) (([t], 0) :: ds) r.

(** A whole [nativeGenerate] call, read the same way. *)
Inductive generate_run (g : LlamaContext) (maxTokens : Z) :
  list llama_token -> list (list llama_token * Z) -> jstring -> Prop :=
| gen_refused : (* turned away by the guard, or the prompt did not tokenize *)
    generate_run g maxTokens [] [] (string_to_jstring "")
| gen_prefill_failed batch rc :
    rc <> 0 ->
    generate_run g maxTokens [] [(batch, rc)] (string_to_jstring "")
| gen_looped batch ts ds r :
    loop_run (vocab g) (Z.to_nat maxTokens) ""%string ts ds r ->
    generate_run g maxTokens ts ((batch, 0) :: ds) (string_to_jstring r).

End Observations.

(** ** Sequences of JNI calls *)

Section Calls.

Context {L : LlamaLib}.

(** What the Kotlin side can do with the engine. *)
Inductive api_call : Type :=
| CallInit
| CallLoadModel (modelPath : jstring) (nThreads nCtx : Z)
| CallGenerate (prompt : jstring) (maxTokens : Z) (temperature : jfloat)
| CallIsLoaded
| CallFree.

Definition api_step (c : api_call) : M unit :=
  match c with
  | CallInit => nativeInit
  | CallLoadModel modelPath nThreads nCtx =>
      _ <- nativeLoadModel modelPath nThreads nCtx ;; ret tt
  | CallGenerate prompt maxTokens temperature =>
      _ <- nativeGenerate prompt maxTokens temperature ;; ret tt
  | CallIsLoaded => _ <- nativeIsLoaded ;; ret tt
  | CallFree => nativeFree
  end.

Fixpoint run_calls (cs : list api_call) : M unit :=
  match cs with
  | [] => ret tt
  | c :: cs' => api_step c ;; run_calls cs'
  end.

(** [g_llama] holds a model and a context exactly when it says it is loaded. *)
Definition consistent (g : LlamaContext) : Prop :=
  if is_loaded g
  then model g <> None /\ ctx g <> None
  else model g = None /\ ctx g = None.

(** Along [evs], starting from [a] live models and [b] live contexts, the
    counts stay counts (nothing is freed that is not alive), there is never
    more than one model, and a context is alive only while a model is. *)
Fixpoint within (a b : Z) (evs : list event) : Prop :=
  match evs with
  | [] => True
  | e :: evs' =>
      0 <= b + context_delta e <= a + model_delta e /\ a + model_delta e <= 1 /\
      within (a + model_delta e) (b + context_delta e) evs'
  end.

(** [1] for a pointer that holds an object, [0] for [nullptr]. *)
Definition held {A : Type} (p : option A) : Z :=
  match p with
  | Some _ => 1
  | None => 0
  end.

(** The event history [tr] accounts for what [g] holds. *)
Definition tracked (g : LlamaContext) (tr : list event) : Prop :=
  consistent g /\
  live_models tr = held (model g) /\
  live_contexts tr = held (ctx g) /\
  within 0 0 tr.

(** The [llama_context_params] that [nativeLoadModel] passes. *)
Definition load_context_params (nThreads nCtx : Z) : llama_context_params llama_context_rest :=
  {| n_ctx := to_uint32 (to_int32 nCtx);
     n_threads := to_int32 nThreads;
     n_threads_batch := to_int32 nThreads;
     cparams_rest := cparams_rest llama_context_default_params |}.

(** The events with which [nativeGenerate] resets the context's memory. *)
Definition memory_reset (c : llama_context) : list event :=
  match llama_get_memory c with
  | Some mem => [EvMemoryClear mem true]
  | None => []
  end.

(** The first library call of a run is a clearing of some memory. *)
Definition clears_first (evs : list event) : Prop :=
  exists mem rest, evs = EvMemoryClear mem true :: rest.

End Calls.

(** ** Further readings of a run *)

Section Protocol.

Context {L : LlamaLib}.

(** The calls that build or destroy a sampler, as opposed to drawing from it. *)
Definition sampler_admin (e : event) : Prop :=
  match e with
  | EvSamplerChainInit _ _ | EvSamplerInitTemp _ _ | EvSamplerInitDist _ _
  | EvSamplerChainAdd _ _ | EvSamplerFree _ => True
  | _ => False
  end.

(** The five calls with which [nativeGenerate] builds its chain [s] out of a
    temperature stage [s1] and a seeded draw [s2]. *)
Definition chain_setup (t : jfloat) (s s1 s2 : llama_sampler) : list event :=
  [EvSamplerChainInit llama_sampler_chain_default_params s;
   EvSamplerInitTemp t s1; EvSamplerChainAdd s s1;
   EvSamplerInitDist LLAMA_DEFAULT_SEED s2; EvSamplerChainAdd s s2].

(** What an iteration of the generation loop may do: draw from the chain [s]
    on the context [c] at the last position, or decode one token on [c]. *)
Definition loop_event (s : llama_sampler) (c : llama_context) (e : event) : Prop :=
  match e with
  | EvSample s' c' idx _ => s' = s /\ c' = c /\ idx = -1
  | EvDecode c' batch _ => c' = c /\ exists t, batch = [t]
  | _ => False
  end.

(** What a generation on the context [c] may do: clear the memory of [c],
    tokenize against the capacity of [c] with both special flags set, decode
    and sample on [c], and handle samplers; never load, create or free a
    model or a context, never touch the backend. *)
Definition on_context (c : llama_context) (e : event) : Prop :=
  match e with
  | EvMemoryClear mem data => llama_get_memory c = Some mem /\ data = true
  | EvTokenize _ _ n_tokens_max add_special parse_special _ =>
      n_tokens_max = Z.of_nat (llama_n_ctx c) /\ add_special = true /\ parse_special = true
  | EvDecode c' _ _ => c' = c
  | EvSample _ c' idx _ => c' = c /\ idx = -1
  | EvSamplerChainInit _ _ | EvSamplerInitTemp _ _ | EvSamplerInitDist _ _
  | EvSamplerChainAdd _ _ | EvSamplerFree _ => True
  | _ => False
  end.



(** An event that frees neither a model nor a context. *)
Definition no_release (e : event) : Prop :=
  match e with
  | EvModelFree _ | EvContextFree _ => False
  | _ => True
  end.

(** The calls that cannot write [g_llama]. *)
Definition reads_only (c : api_call) : Prop :=
  match c with
  | CallLoadModel _ _ _ | CallFree => False
  | _ => True
  end.

(** When [g] says it is loaded, it holds a model the library returned, the
    vocabulary of that model, and a context created from that model right
    after it; nothing has been freed since. *)
Definition provenance (g : LlamaContext) (tr : list event) : Prop :=
  is_loaded g = true ->
  exists m c path p pre post,
    model g = Some m /\ ctx g = Some c /\ vocab g = llama_model_get_vocab m /\
    tr = pre ++ EvModelLoad path llama_model_default_params (Some m)
             :: EvContextInit m p (Some c) :: post /\
    Forall no_release post.

End Protocol.

(** Splits an accounting goal over an explicit event list, given the three
    lemmas that distribute the counters over [++]. *)
Ltac account models_app contexts_app within_app :=
  repeat split; cbn;
  rewrite ?models_app, ?contexts_app, ?within_app; cbn;
  repeat split; try lia; try discriminate.

(** ** A small scripted library, to run the bridge on concrete inputs *)

Module Fake.

(** The library state: the tokens the sampler will draw, and how many more
    [llama_decode] calls succeed. *)
Record fake_world : Type := mk_world {
  script : list llama_token;
  decode_budget : nat
}.

Definition eos : llama_token := 2.
Definition im_end : llama_token := 3.

(** One token per character; token [3] is the ChatML end marker as a single
    special token, token [2] ends generation. *)
Definition token_piece (t : llama_token) : string :=
  if t =? im_end then stop_marker
  else String (ascii_of_nat (Z.to_nat t)) EmptyString.

Definition encode (text : string) : list llama_token :=
  map (fun a => Z.of_nat (nat_of_ascii a)) (list_ascii_of_string text).

Definition to_piece (t : llama_token) (len : Z) : Z * string :=
  let p := token_piece t in
  let n := Z.of_nat (String.length p) in
  if n <=? len then (n, p) else (- n, EmptyString).

Definition decode (w : fake_world) : Z * fake_world :=
  match decode_budget w with
  | O => (1, w)
  | S k => (0, {| script := script w; decode_budget := k |})
  end.

Definition sample (w : fake_world) : llama_token * fake_world :=
  match script w with
  | [] => (eos, w)
  | t :: rest => (t, {| script := rest; decode_budget := decode_budget w |})
  end.

(** A model is named by its path; the empty path is a missing file, a context
    of more than 4096 tokens cannot be allocated, and the model
    [encoder.gguf] has no KV memory. *)
Definition load (path : string) (w : fake_world) : option string * fake_world :=
  if String.eqb path EmptyString then (None, w) else (Some path, w).

Definition new_context (m : string) (p : llama_context_params unit) (w : fake_world)
  : option (string * Z) * fake_world :=
  if 4096 <? n_ctx p then (None, w) else (Some (m, n_ctx p), w).

Definition memory_of (c : string * Z) : option unit :=
  if String.eqb (fst c) "encoder.gguf" then None else Some tt.

Definition lib : LlamaLib := {|
  llama_model := string;
  llama_context := string * Z;
  llama_vocab := unit;
  llama_memory_t := unit;
  llama_sampler := nat;
  llama_model_params := unit;
  llama_context_rest := unit;
  llama_sampler_chain_params := unit;
  jfloat := Z;
  world := fake_world;
  LLAMA_DEFAULT_SEED := 4294967295;
  llama_model_default_params := tt;
  llama_context_default_params :=
    {| n_ctx := 512; n_threads := 4; n_threads_batch := 4; cparams_rest := tt |};
  llama_sampler_chain_default_params := tt;
  llama_backend_init := fun w => w;
  llama_backend_free := fun w => w;
  llama_model_load_from_file := fun path _ => load path;
  llama_model_free := fun _ w => w;
  llama_model_get_vocab := fun _ => Some tt;
  llama_init_from_model := new_context;
  llama_free := fun _ w => w;
  llama_get_memory := memory_of;
  llama_memory_clear := fun _ _ w => w;
  llama_n_ctx := fun c => Z.to_nat (snd c);
  vocab_encode := fun _ text _ _ => encode text;
  llama_vocab_eos := fun _ => eos;
  llama_vocab_is_eog := fun _ t => t =? eos;
  llama_token_to_piece := fun _ t len _ _ => to_piece t len;
  llama_decode := fun _ _ => decode;
  llama_sampler_chain_init := fun _ w => (0%nat, w);
  llama_sampler_init_temp := fun _ w => (1%nat, w);
  llama_sampler_init_dist := fun _ w => (2%nat, w);
  llama_sampler_chain_add := fun _ _ w => w;
  llama_sampler_sample := fun _ _ _ => sample;
  llama_sampler_free := fun _ w => w
|}.

(** The engine after [nativeInit] and a successful [nativeLoadModel] of
    [path] with a context of [n] tokens, the library holding [w]. *)
Definition loaded (path : string) (n : Z) (w : fake_world) : State (L := lib) :=
  state_of ((nativeInit ;; nativeLoadModel (Some path) 4 n) (initial (L := lib) w)).

End Fake.

(** ** Strings: [find] and [substr] against concatenation *)

Section Strings.

Local Open Scope string_scope.

Lemma append_empty_r (s : string) : s ++ "" = s.
Proof. induction s as [|a s IH]; simpl; [reflexivity | now rewrite IH]. Qed.

Lemma append_assoc (s t u : string) : (s ++ t) ++ u = s ++ (t ++ u).
Proof. induction s as [|a s IH]; simpl; [reflexivity | now rewrite IH]. Qed.

Lemma prefix_iff_append (p s : string) :
  prefix p s = true <-> exists post, s = p ++ post.
Proof.
  rewrite prefix_correct. revert s.
  induction p as [|a p IH]; intros s; simpl.
  - split; [intros _; now exists s | intros _; now destruct s].
  - destruct s as [|b s]; simpl.
    + split; [discriminate | intros [post H]; discriminate].
    + split.
      * intros H. injection H as -> H. apply IH in H as [post ->]. now exists post.
      * intros [post H]. injection H as -> ->. f_equal. apply IH. now exists post.
Qed.

Lemma index_cons (p : string) (b : ascii) (s : string) :
  index 0 p (String b s) =
  if prefix p (String b s) then Some 0%nat
  else match index 0 p s with Some n => Some (S n) | None => None end.
Proof. reflexivity. Qed.

Lemma index_found (p s : string) (m : nat) :
  index 0 p s = Some m ->
  (exists post, s = substring 0 m s ++ p ++ post) /\
  String.length (substring 0 m s) = m /\
  forall pre post, s = pre ++ p ++ post -> (m <= String.length pre)%nat.
Proof.
  revert m. induction s as [|b s IH]; intros m.
  - simpl. destruct p; [|discriminate]. intros [= <-]. simpl.
    repeat split; [now exists "" | intros; lia].
  - rewrite index_cons. destruct (prefix p (String b s)) eqn:Hp.
    + intros [= <-]. simpl. apply prefix_iff_append in Hp as [post Hp].
      repeat split; [now exists post | intros; lia].
    + destruct (index 0 p s) as [n|] eqn:Hi; [|discriminate].
      intros [= <-]. destruct (IH n eq_refl) as ([post Hpost] & Hlen & Hmin).
      simpl. repeat split.
      * exists post. now rewrite <- Hpost.
      * now rewrite Hlen.
      * intros [|c pre] post' H; simpl in H.
        -- assert (prefix p (String b s) = true) as Ht
             by (apply prefix_iff_append; now exists post').
           congruence.
        -- injection H as _ H. apply Hmin in H. simpl. lia.
Qed.

Lemma index_not_found (p s : string) :
  index 0 p s = None -> forall pre post, s <> pre ++ p ++ post.
Proof.
  induction s as [|b s IH].
  - simpl. destruct p; [discriminate|]. intros _ [|c pre] post; simpl; discriminate.
  - rewrite index_cons. destruct (prefix p (String b s)) eqn:Hp; [discriminate|].
    destruct (index 0 p s) eqn:Hi; [discriminate|]. intros _ [|c pre] post H.
    + simpl in H.
      assert (prefix p (String b s) = true) as Ht
        by (apply prefix_iff_append; now exists post).
      congruence.
    + simpl in H. injection H as _ H. now apply (IH eq_refl pre post).
Qed.




End Strings.

(** ** The generation loop *)

Section Loop.

Context {L : LlamaLib}.

Lemma append_piece_text (v : option llama_vocab) (t : llama_token) (acc : string) :
  (let '(n, buf) := llama_token_to_piece v t 256 0 true in append_piece acc n buf)
  = (acc ++ piece_text v t)%string.
Proof.
  unfold piece_text, append_piece.
  destruct (llama_token_to_piece v t 256 0 true) as [n buf].
  destruct (0 <? n); simpl; [reflexivity | now rewrite append_empty_r].
Qed.

Lemma pieces_app (v : option llama_vocab) (ts us : list llama_token) :
  pieces v (ts ++ us) = (pieces v ts ++ pieces v us)%string.
Proof.
  induction ts as [|t ts IH]; simpl; [reflexivity|].
  now rewrite IH, append_assoc.
Qed.

Lemma sampled_app (e1 e2 : list event) : sampled (e1 ++ e2) = (sampled e1 ++ sampled e2)%list.
Proof. apply flat_map_app. Qed.

Lemma decodes_app (e1 e2 : list event) : decodes (e1 ++ e2) = (decodes e1 ++ decodes e2)%list.
Proof. apply flat_map_app. Qed.

(** What one call of the loop does, unfolded once. *)
Lemma gen_loop_step (todo : nat) (i : Z) (s : llama_sampler) (c : llama_context)
    (v : option llama_vocab) (acc : string) (st : State) :
  gen_loop (S todo) i s c v acc st =
  let '(t, w1) := llama_sampler_sample s c (-1) (lib st) in
  let st1 := {| g_llama := g_llama st; lib := w1 |} in
  if llama_vocab_is_eog v t then (acc, st1, [EvSample s c (-1) t])
  else
    match index 0 stop_marker (acc ++ piece_text v t)%string with
    | Some pos => (substring 0 pos (acc ++ piece_text v t)%string, st1, [EvSample s c (-1) t])
    | None =>
        let '(rc, w2) := llama_decode c [t] w1 in
        let st2 := {| g_llama := g_llama st; lib := w2 |} in
        if rc =? 0
        then
          let o := gen_loop todo (i + 1) s c v (acc ++ piece_text v t)%string st2 in
          (result_of o, state_of o,
           EvSample s c (-1) t :: EvDecode c [t] rc :: events_of o)
        else ((acc ++ piece_text v t)%string, st2, [EvSample s c (-1) t; EvDecode c [t] rc])
    end.
Proof.
  cbn [gen_loop]. unfold bind, do_sampler_sample, do_decode, call_val, ret.
  destruct (llama_sampler_sample s c (-1) (lib st)) as [t w1]. cbn.
  destruct (llama_vocab_is_eog v t); [reflexivity|].
  rewrite <- (append_piece_text v t acc).
  destruct (llama_token_to_piece v t 256 0 true) as [n buf].
  destruct (index 0 stop_marker (append_piece acc n buf)); [reflexivity|].
  cbn. destruct (llama_decode c [t] w1) as [rc w2]. cbn.
  destruct (rc =? 0); [|reflexivity].
  destruct (gen_loop todo (i + 1) s c v (append_piece acc n buf) _) as [[r st'] evs].
  reflexivity.
Qed.

(** Every run of the loop is one of the runs [loop_run] describes. *)
Lemma gen_loop_run (todo : nat) : forall (i : Z) (s : llama_sampler) (c : llama_context)
    (v : option llama_vocab) (acc : string) (st : State),
  let o := gen_loop todo i s c v acc st in
  loop_run v todo acc (sampled (events_of o)) (decodes (events_of o)) (result_of o).
Proof.
  induction todo as [|todo IH]; intros i s c v acc st.
  - cbn. constructor.
  - cbv zeta. rewrite gen_loop_step.
    destruct (llama_sampler_sample s c (-1) (lib st)) as [t w1].
    destruct (llama_vocab_is_eog v t) eqn:Heog.
    + cbn. now constructor.
    + destruct (index 0 stop_marker (acc ++ piece_text v t)%string) as [pos|] eqn:Hidx.
      * cbn. now constructor.
      * destruct (llama_decode c [t] w1) as [rc w2].
        destruct (rc =? 0) eqn:Hrc.
        -- apply Z.eqb_eq in Hrc. subst rc. cbn.
           apply run_next; [assumption | assumption | apply IH].
        -- apply Z.eqb_neq in Hrc. cbn. now constructor.
Qed.

(** The loop never touches [g_llama], and it neither creates nor frees a
    model or a context. *)
Lemma gen_loop_g (todo : nat) : forall i s c v acc st,
  g_llama (state_of (gen_loop todo i s c v acc st)) = g_llama st.
Proof.
  induction todo as [|todo IH]; intros i s c v acc st; [reflexivity|].
  rewrite gen_loop_step.
  destruct (llama_sampler_sample s c (-1) (lib st)) as [t w1].
  destruct (llama_vocab_is_eog v t); [reflexivity|].
  destruct (index 0 stop_marker (acc ++ piece_text v t)%string); [reflexivity|].
  destruct (llama_decode c [t] w1) as [rc w2].
  destruct (rc =? 0); [|reflexivity].
  cbn. now rewrite IH.
Qed.

Lemma gen_loop_quiet (todo : nat) : forall i s c v acc st,
  Forall quiet (events_of (gen_loop todo i s c v acc st)).
Proof.
  induction todo as [|todo IH]; intros i s c v acc st; [constructor|].
  rewrite gen_loop_step.
  destruct (llama_sampler_sample s c (-1) (lib st)) as [t w1].
  destruct (llama_vocab_is_eog v t); [repeat constructor|].
  destruct (index 0 stop_marker (acc ++ piece_text v t)%string); [repeat constructor|].
  destruct (llama_decode c [t] w1) as [rc w2].
  destruct (rc =? 0); [|repeat constructor].
  cbn. repeat (constructor; [split; reflexivity|]). apply IH.
Qed.

End Loop.

(** ** Consequences of [loop_run] *)

Section LoopRuns.

Context {L : LlamaLib}.

Variable v : option llama_vocab.





End LoopRuns.

(** ** [nativeGenerate], unfolded *)

Section Generate.

Context {L : LlamaLib}.

(** A call that the guard of [nativeGenerate] turns away. *)
Lemma nativeGenerate_refused prompt maxTokens temperature (st : State) :
  (is_loaded (g_llama st) = false \/ ctx (g_llama st) = None \/ model (g_llama st) = None) ->
  nativeGenerate prompt maxTokens temperature st = (string_to_jstring "", st, []).
Proof.
  intros H. unfold nativeGenerate, bind, get_g, ret. cbn.
  destruct (is_loaded (g_llama st)), (ctx (g_llama st)), (model (g_llama st));
    try reflexivity; destruct H as [H|[H|H]]; discriminate.
Qed.

Lemma nativeGenerate_loaded prompt maxTokens temperature (st : State) c m :
  is_loaded (g_llama st) = true -> ctx (g_llama st) = Some c -> model (g_llama st) = Some m ->
  nativeGenerate prompt maxTokens temperature st =
  let g := g_llama st in
  let w0 := match llama_get_memory c with
            | Some mem => llama_memory_clear mem true (lib st)
            | None => lib st
            end in
  let n_max := Z.of_nat (llama_n_ctx c) in
  let tk := llama_tokenize (vocab g) (jstring_to_string prompt) n_max true true in
  let ev_tok :=
    EvTokenize (vocab g) (jstring_to_string prompt) n_max true true (fst tk) in
  if fst tk <? 0
  then (string_to_jstring "", {| g_llama := g; lib := w0 |}, memory_reset c ++ [ev_tok])
  else
    let batch := vector_resize (fst tk) (fill_buffer n_max (snd tk)) in
    let '(rc, w1) := llama_decode c batch w0 in
    if negb (rc =? 0)
    then (string_to_jstring "", {| g_llama := g; lib := w1 |},
          memory_reset c ++ [ev_tok; EvDecode c batch rc])
    else
      let '(s, w2) := llama_sampler_chain_init llama_sampler_chain_default_params w1 in
      let '(s1, w3) := llama_sampler_init_temp temperature w2 in
      let w4 := llama_sampler_chain_add s s1 w3 in
      let '(s2, w5) := llama_sampler_init_dist LLAMA_DEFAULT_SEED w4 in
      let w6 := llama_sampler_chain_add s s2 w5 in
      let o := gen_loop (Z.to_nat maxTokens) 0 s c (vocab g) ""%string
                 {| g_llama := g; lib := w6 |} in
      (string_to_jstring (result_of o),
       {| g_llama := g_llama (state_of o); lib := llama_sampler_free s (lib (state_of o)) |},
       memory_reset c ++
       ev_tok :: EvDecode c batch rc ::
       EvSamplerChainInit llama_sampler_chain_default_params s ::
       EvSamplerInitTemp temperature s1 :: EvSamplerChainAdd s s1 ::
       EvSamplerInitDist LLAMA_DEFAULT_SEED s2 :: EvSamplerChainAdd s s2 ::
       events_of o ++ [EvSamplerFree s]).
Proof.
  intros Hl Hc Hm. unfold nativeGenerate, bind, get_g. cbn.
  rewrite Hl, Hc, Hm. cbv zeta.
  assert (Hreset :
    (match llama_get_memory c with
     | Some mem => do_memory_clear mem true
     | None => ret tt
     end) st =
    (tt, {| g_llama := g_llama st;
            lib := match llama_get_memory c with
                   | Some mem => llama_memory_clear mem true (lib st)
                   | None => lib st
                   end |}, memory_reset c)).
  { unfold memory_reset. destruct (llama_get_memory c); [reflexivity|].
    unfold ret. now destruct st. }
  rewrite Hreset. unfold do_tokenize. cbn.
  destruct (fst (llama_tokenize _ _ _ _ _) <? 0); [reflexivity|].
  unfold do_decode, call_val. cbn.
  destruct (llama_decode c _ _) as [rc w1]. cbn.
  destruct (rc =? 0); cbn; [|reflexivity].
  unfold do_sampler_chain_init, do_sampler_init_temp, do_sampler_init_dist,
    do_sampler_chain_add, do_sampler_free, call_val, call_unit. cbn.
  destruct (llama_sampler_chain_init _ w1) as [s w2]. cbn.
  destruct (llama_sampler_init_temp temperature w2) as [s1 w3]. cbn.
  destruct (llama_sampler_init_dist _ _) as [s2 w5]. cbn.
  destruct (gen_loop _ _ _ _ _ _ _) as [[r st'] evs]. cbn.
  unfold ret. cbn. reflexivity.
Qed.

End Generate.

(** ** [nativeGenerate] as a whole *)

Section GenerateRuns.

Context {L : LlamaLib}.

Lemma sampled_memory_reset c : sampled (memory_reset c) = [].
Proof. unfold memory_reset. now destruct (llama_get_memory c). Qed.

Lemma decodes_memory_reset c : decodes (memory_reset c) = [].
Proof. unfold memory_reset. now destruct (llama_get_memory c). Qed.

Lemma loaded_or_not (g : LlamaContext) :
  (exists c m, is_loaded g = true /\ ctx g = Some c /\ model g = Some m) \/
  (is_loaded g = false \/ ctx g = None \/ model g = None).
Proof.
  destruct (is_loaded g), (ctx g) as [c|], (model g) as [m|]; eauto 8.
Qed.

(** Every call of [nativeGenerate] is one of the runs [generate_run] describes. *)
Lemma nativeGenerate_run prompt maxTokens temperature (st : State) :
  let o := nativeGenerate prompt maxTokens temperature st in
  generate_run (g_llama st) maxTokens
    (sampled (events_of o)) (decodes (events_of o)) (result_of o).
Proof.
  cbv zeta.
  destruct (loaded_or_not (g_llama st)) as [(c & m & Hl & Hc & Hm)|Hno].
  - rewrite (nativeGenerate_loaded _ _ _ _ c m Hl Hc Hm). cbv zeta.
    destruct (fst (llama_tokenize _ _ _ _ _) <? 0).
    + unfold events_of, result_of. cbn [fst snd].
      rewrite sampled_app, decodes_app, sampled_memory_reset, decodes_memory_reset.
      constructor.
    + destruct (llama_decode c _ _) as [rc w1].
      destruct (rc =? 0) eqn:Hrc; cbn [negb].
      * apply Z.eqb_eq in Hrc. subst rc.
        destruct (llama_sampler_chain_init _ w1) as [s w2].
        destruct (llama_sampler_init_temp temperature w2) as [s1 w3].
        destruct (llama_sampler_init_dist _ _) as [s2 w5].
        unfold events_of at 1 3, result_of at 1. cbn [fst snd].
        rewrite sampled_app, decodes_app, sampled_memory_reset, decodes_memory_reset.
        cbn [app sampled decodes flat_map sampled_of decode_of].
        fold (sampled (events_of (gen_loop (Z.to_nat maxTokens) 0 s c (vocab (g_llama st)) ""
                 {| g_llama := g_llama st; lib := llama_sampler_chain_add s s2 w5 |})
               ++ [EvSamplerFree s])).
        fold (decodes (events_of (gen_loop (Z.to_nat maxTokens) 0 s c (vocab (g_llama st)) ""
                 {| g_llama := g_llama st; lib := llama_sampler_chain_add s s2 w5 |})
               ++ [EvSamplerFree s])).
        rewrite sampled_app, decodes_app. cbn [sampled decodes flat_map sampled_of decode_of].
        rewrite !app_nil_r. apply gen_looped. apply gen_loop_run.
      * apply Z.eqb_neq in Hrc.
        unfold events_of, result_of. cbn [fst snd].
        rewrite sampled_app, decodes_app, sampled_memory_reset, decodes_memory_reset.
        cbn. now constructor.
  - rewrite (nativeGenerate_refused _ _ _ _ Hno). constructor.
Qed.

End GenerateRuns.

(** ** Lifecycle: what is alive, and when *)

Section Lifecycle.

Context {L : LlamaLib}.

Lemma live_models_app e1 e2 : live_models (e1 ++ e2) = live_models e1 + live_models e2.
Proof. induction e1 as [|e e1 IH]; simpl; lia. Qed.

Lemma live_contexts_app e1 e2 : live_contexts (e1 ++ e2) = live_contexts e1 + live_contexts e2.
Proof. induction e1 as [|e e1 IH]; simpl; lia. Qed.

Lemma within_app a b e1 : forall e2,
  within a b (e1 ++ e2) <->
  within a b e1 /\ within (a + live_models e1) (b + live_contexts e1) e2.
Proof.
  revert a b. induction e1 as [|e e1 IH]; intros a b e2; simpl.
  - rewrite !Z.add_0_r. tauto.
  - rewrite IH, !Z.add_assoc. tauto.
Qed.

Lemma within_firstn a b evs :
  0 <= b <= a -> a <= 1 -> within a b evs ->
  forall n,
    0 <= b + live_contexts (firstn n evs) <= a + live_models (firstn n evs) /\
    a + live_models (firstn n evs) <= 1.
Proof.
  revert a b. induction evs as [|e evs IH]; intros a b Hb Ha Hw n.
  - destruct n; simpl; lia.
  - destruct n as [|n]; simpl; [lia|].
    destruct Hw as (Hc & Hm & Hw). specialize (IH _ _ Hc Hm Hw n). lia.
Qed.

Lemma quiet_live evs : Forall quiet evs -> live_models evs = 0 /\ live_contexts evs = 0.
Proof.
  induction 1 as [|e evs [Hm Hc] _ [IHm IHc]]; simpl; [auto | lia].
Qed.

Lemma quiet_within a b evs : 0 <= b <= a -> a <= 1 -> Forall quiet evs -> within a b evs.
Proof.
  intros Hb Ha H. revert a b Ha Hb.
  induction H as [|e evs [Hm Hc] _ IH]; intros a b Ha Hb; simpl; [exact I|].
  rewrite Hm, Hc, !Z.add_0_r. auto.
Qed.

Lemma quiet_memory_reset c : Forall quiet (memory_reset c).
Proof. unfold memory_reset. destruct (llama_get_memory c); repeat constructor. Qed.

(** [nativeGenerate] leaves [g_llama] alone and its events are quiet. *)
Lemma nativeGenerate_g prompt maxTokens temperature (st : State) :
  g_llama (state_of (nativeGenerate prompt maxTokens temperature st)) = g_llama st.
Proof.
  destruct (loaded_or_not (g_llama st)) as [(c & m & Hl & Hc & Hm)|Hno].
  - rewrite (nativeGenerate_loaded _ _ _ _ c m Hl Hc Hm). cbv zeta.
    destruct (fst (llama_tokenize _ _ _ _ _) <? 0); [reflexivity|].
    destruct (llama_decode c _ _) as [rc w1].
    destruct (negb (rc =? 0)); [reflexivity|].
    destruct (llama_sampler_chain_init _ w1) as [s w2].
    destruct (llama_sampler_init_temp temperature w2) as [s1 w3].
    destruct (llama_sampler_init_dist _ _) as [s2 w5].
    unfold state_of at 1. cbn [fst snd g_llama]. now rewrite gen_loop_g.
  - now rewrite (nativeGenerate_refused _ _ _ _ Hno).
Qed.

Lemma nativeGenerate_quiet prompt maxTokens temperature (st : State) :
  Forall quiet (events_of (nativeGenerate prompt maxTokens temperature st)).
Proof.
  destruct (loaded_or_not (g_llama st)) as [(c & m & Hl & Hc & Hm)|Hno].
  - rewrite (nativeGenerate_loaded _ _ _ _ c m Hl Hc Hm). cbv zeta.
    destruct (fst (llama_tokenize _ _ _ _ _) <? 0).
    { apply Forall_app. split; [apply quiet_memory_reset | repeat constructor]. }
    destruct (llama_decode c _ _) as [rc w1].
    destruct (negb (rc =? 0)).
    { apply Forall_app. split; [apply quiet_memory_reset | repeat constructor]. }
    destruct (llama_sampler_chain_init _ w1) as [s w2].
    destruct (llama_sampler_init_temp temperature w2) as [s1 w3].
    destruct (llama_sampler_init_dist _ _) as [s2 w5].
    unfold events_of at 1. cbn [fst snd].
    apply Forall_app. split; [apply quiet_memory_reset|].
    repeat (constructor; [split; reflexivity|]).
    apply Forall_app. split; [apply gen_loop_quiet | repeat constructor].
  - rewrite (nativeGenerate_refused _ _ _ _ Hno). constructor.
Qed.

End Lifecycle.

(** ** [nativeLoadModel] and [nativeFree], unfolded *)

Section LoadRuns.

Context {L : LlamaLib}.

Lemma nativeLoadModel_unfold modelPath nThreads nCtx (st : State) :
  nativeLoadModel modelPath nThreads nCtx st =
  let g := g_llama st in
  let ev0 :=
    if is_loaded g
    then match ctx g with Some c => [EvContextFree c] | None => [] end ++
         match model g with Some m => [EvModelFree m] | None => [] end
    else [] in
  let w0 :=
    if is_loaded g
    then let w := match ctx g with Some c => llama_free c (lib st) | None => lib st end in
         match model g with Some m => llama_model_free m w | None => w end
    else lib st in
  let c0 := if is_loaded g then None else ctx g in
  let path := jstring_to_string modelPath in
  let '(r, w1) := llama_model_load_from_file path llama_model_default_params w0 in
  match r with
  | None =>
      (false,
       {| g_llama := {| model := None; ctx := c0; vocab := vocab g; is_loaded := false |};
          lib := w1 |},
       ev0 ++ [EvModelLoad path llama_model_default_params None])
  | Some m =>
      let cp := load_context_params nThreads nCtx in
      let '(rc, w2) := llama_init_from_model m cp w1 in
      match rc with
      | None =>
          (false,
           {| g_llama := {| model := None; ctx := None; vocab := llama_model_get_vocab m;
                            is_loaded := false |};
              lib := llama_model_free m w2 |},
           ev0 ++ [EvModelLoad path llama_model_default_params (Some m);
                   EvContextInit m cp None; EvModelFree m])
      | Some c =>
          (true,
           {| g_llama := {| model := Some m; ctx := Some c; vocab := llama_model_get_vocab m;
                            is_loaded := true |};
              lib := w2 |},
           ev0 ++ [EvModelLoad path llama_model_default_params (Some m);
                   EvContextInit m cp (Some c)])
      end
  end.
Proof.
  destruct st as [[m0 c0 v0 l0] w]. unfold load_context_params.
  unfold nativeLoadModel, bind, get_g, release_ctx, release_model, set_is_loaded,
    set_model, set_ctx, set_vocab, do_model_load, do_context_init, do_model_free,
    do_context_free, call_val, call_unit, ret, bind, get_g.
  destruct l0, c0 as [c0|], m0 as [m0|]; cbn;
    (destruct (llama_model_load_from_file _ _ _) as [[m|] w1]; cbn; [|reflexivity]);
    (destruct (llama_init_from_model m _ w1) as [[c|] w2]; cbn; reflexivity).
Qed.

Lemma nativeFree_unfold (st : State) :
  nativeFree st =
  let g := g_llama st in
  let w := match ctx g with Some c => llama_free c (lib st) | None => lib st end in
  let w' := match model g with Some m => llama_model_free m w | None => w end in
  (tt,
   {| g_llama := {| model := None; ctx := None; vocab := vocab g; is_loaded := false |};
      lib := llama_backend_free w' |},
   match ctx g with Some c => [EvContextFree c] | None => [] end ++
   match model g with Some m => [EvModelFree m] | None => [] end ++ [EvBackendFree]).
Proof.
  destruct st as [[m0 c0 v0 l0] w].
  unfold nativeFree, bind, get_g, release_ctx, release_model, set_is_loaded,
    set_model, set_ctx, do_model_free, do_context_free, do_backend_free,
    call_unit, ret, bind, get_g.
  destruct c0 as [c0|], m0 as [m0|]; cbn; reflexivity.
Qed.

End LoadRuns.

(** ** The accounting invariant along any sequence of calls *)

Section Tracking.

Context {L : LlamaLib}.

Lemma bind_state {A B} (m : M A) (f : A -> M B) (s : State) :
  state_of (bind m f s) = state_of (f (result_of (m s)) (state_of (m s))).
Proof.
  unfold bind, state_of, result_of. destruct (m s) as [[a s1] e1]. cbn.
  now destruct (f a s1) as [[b s2] e2].
Qed.

Lemma bind_events {A B} (m : M A) (f : A -> M B) (s : State) :
  events_of (bind m f s) =
  events_of (m s) ++ events_of (f (result_of (m s)) (state_of (m s))).
Proof.
  unfold bind, state_of, result_of, events_of. destruct (m s) as [[a s1] e1]. cbn.
  now destruct (f a s1) as [[b s2] e2].
Qed.

Lemma ret_state {A} (a : A) (s : State) : state_of (ret a s) = s.
Proof. reflexivity. Qed.

Lemma ret_events {A} (a : A) (s : State) : events_of (ret a s) = [].
Proof. reflexivity. Qed.

Lemma tracked_initial : tracked g_llama_init [].
Proof. repeat split. Qed.

Lemma tracked_quiet g tr evs : tracked g tr -> Forall quiet evs -> tracked g (tr ++ evs).
Proof.
  intros (Hc & Hm & Hx & Hw) Hq. destruct (quiet_live _ Hq) as [Qm Qc].
  repeat split; try assumption.
  - rewrite live_models_app. lia.
  - rewrite live_contexts_app. lia.
  - apply within_app. split; [assumption|].
    rewrite Hm, Hx. unfold consistent in Hc.
    apply quiet_within; [| |assumption]; unfold held;
      destruct (is_loaded g), Hc as [Hc1 Hc2], (model g), (ctx g);
      try congruence; lia.
Qed.

Lemma nativeLoadModel_tracked modelPath nThreads nCtx (st : State) tr :
  tracked (g_llama st) tr ->
  let o := nativeLoadModel modelPath nThreads nCtx st in
  tracked (g_llama (state_of o)) (tr ++ events_of o).
Proof.
  intros (Hc & Hm & Hx & Hw). cbv zeta. rewrite nativeLoadModel_unfold. cbv zeta.
  destruct st as [[m0 c0 v0 l0] w]. unfold tracked, consistent in *. cbn in *.
  destruct l0.
  - destruct Hc as [Hm0 Hc0].
    destruct m0 as [m0|]; [|congruence]. destruct c0 as [c0|]; [|congruence].
    cbn in *.
    destruct (llama_model_load_from_file _ _ _) as [[m|] w1]; [|account live_models_app live_contexts_app within_app; auto].
    destruct (llama_init_from_model m _ w1) as [[c|] w2]; account live_models_app live_contexts_app within_app; auto.
  - destruct Hc as [-> ->]. cbn in *.
    destruct (llama_model_load_from_file _ _ _) as [[m|] w1]; [|account live_models_app live_contexts_app within_app; auto].
    destruct (llama_init_from_model m _ w1) as [[c|] w2]; account live_models_app live_contexts_app within_app; auto.
Qed.

Lemma nativeFree_tracked (st : State) tr :
  tracked (g_llama st) tr ->
  tracked (g_llama (state_of (nativeFree st))) (tr ++ events_of (nativeFree st)).
Proof.
  intros (Hc & Hm & Hx & Hw). rewrite nativeFree_unfold. cbv zeta.
  destruct st as [[m0 c0 v0 l0] w]. unfold tracked, consistent in *. cbn in *.
  destruct l0.
  - destruct Hc as [Hm0 Hc0].
    destruct m0 as [m0|]; [|congruence]. destruct c0 as [c0|]; [|congruence].
    cbn in *. account live_models_app live_contexts_app within_app; auto.
  - destruct Hc as [-> ->]. cbn in *. account live_models_app live_contexts_app within_app; auto.
Qed.

Lemma api_step_tracked (c : api_call) (st : State) tr :
  tracked (g_llama st) tr ->
  tracked (g_llama (state_of (api_step c st))) (tr ++ events_of (api_step c st)).
Proof.
  intros H. destruct c as [|p nt nc|p mt t| |]; cbn [api_step].
  - apply (tracked_quiet _ _ [EvBackendInit] H). repeat constructor.
  - rewrite bind_state, bind_events, ret_state, ret_events, app_nil_r.
    now apply nativeLoadModel_tracked.
  - rewrite bind_state, bind_events, ret_state, ret_events, app_nil_r, nativeGenerate_g.
    apply (tracked_quiet _ _ _ H), nativeGenerate_quiet.
  - cbn. now rewrite app_nil_r.
  - now apply nativeFree_tracked.
Qed.

Lemma run_calls_tracked (cs : list api_call) : forall (st : State) tr,
  tracked (g_llama st) tr ->
  tracked (g_llama (state_of (run_calls cs st))) (tr ++ events_of (run_calls cs st)).
Proof.
  induction cs as [|c cs IH]; intros st tr H.
  - cbn. now rewrite app_nil_r.
  - cbn [run_calls]. rewrite bind_state, bind_events, app_assoc.
    apply IH. now apply api_step_tracked.
Qed.

(** Whatever the Kotlin side has called so far, the history accounts for
    [g_llama]. *)
Lemma reachable_tracked (w : world) (cs : list api_call) :
  let o := run_calls cs (initial w) in
  tracked (g_llama (state_of o)) (events_of o).
Proof. apply (run_calls_tracked cs (initial w) []), tracked_initial. Qed.

End Tracking.

(** ** The generation loop: budget, end of generation, stop marker, decode failure *)

Section GenerationClaims.

Context {L : LlamaLib}.




End GenerationClaims.

(** ** The guard, the memory reset and the prompt *)

Section PromptClaims.

Context {L : LlamaLib}.


(** The batch of the prefill is the encoded prompt whenever it fits. *)
Lemma tokenize_fits v text (n_max : nat) :
  let toks := vocab_encode v text true true in
  let tk := llama_tokenize v text (Z.of_nat n_max) true true in
  (fst tk <? 0) = false ->
  fst tk = Z.of_nat (List.length toks) /\
  vector_resize (fst tk) (fill_buffer (Z.of_nat n_max) (snd tk)) = toks.
Proof.
  cbv zeta. unfold llama_tokenize.
  set (toks := vocab_encode v text true true).
  destruct (Z.of_nat (List.length toks) <=? Z.of_nat n_max) eqn:Hfit; cbn [fst snd]; intros Hn.
  - split; [reflexivity|]. apply Z.leb_le in Hfit.
    unfold vector_resize, fill_buffer. rewrite !Nat2Z.id.
    rewrite firstn_app, firstn_all, Nat.sub_diag, firstn_O, app_nil_r.
    rewrite length_app, repeat_length.
    replace (List.length toks - (List.length toks + (n_max - List.length toks)))%nat
      with 0%nat by lia.
    apply app_nil_r.
  - apply Z.leb_gt in Hfit. apply Z.ltb_ge in Hn. lia.
Qed.

Lemma tokenize_overflow v text (n_max : nat) :
  let count := Z.of_nat (List.length (vocab_encode v text true true)) in
  Z.of_nat n_max < count ->
  llama_tokenize v text (Z.of_nat n_max) true true = (- count, []).
Proof.
  cbv zeta. intros H. unfold llama_tokenize.
  destruct (_ <=? _) eqn:Hfit; [apply Z.leb_le in Hfit; lia | reflexivity].
Qed.

(** C3. When [g_llama] is not loaded, [nativeGenerate] returns the empty
    string and does nothing else: the state is unchanged and no call into the
    library is made.  The engine is in that situation before any load, after
    a load that failed, and after [nativeFree]. *)
Theorem generate_not_loaded prompt maxTokens temperature :
  (forall st : State, is_loaded (g_llama st) = false ->
     nativeGenerate prompt maxTokens temperature st = (string_to_jstring "", st, [])) /\
  (forall w, is_loaded (g_llama (initial w)) = false) /\
  (forall (st : State) modelPath nThreads nCtx,
     result_of (nativeLoadModel modelPath nThreads nCtx st) = false ->
     is_loaded (g_llama (state_of (nativeLoadModel modelPath nThreads nCtx st))) = false) /\
  (forall st : State, is_loaded (g_llama (state_of (nativeFree st))) = false).
Proof.
  repeat split.
  - intros st H. apply nativeGenerate_refused. now left.
  - intros st modelPath nThreads nCtx. rewrite nativeLoadModel_unfold. cbv zeta.
    destruct (llama_model_load_from_file _ _ _) as [[m|] w1]; [|reflexivity].
    destruct (llama_init_from_model m _ w1) as [[c|] w2]; [discriminate | reflexivity].
  - intros st. now rewrite nativeFree_unfold.
Qed.


(** C5. On a loaded engine, a prompt that encodes to more tokens than the
    context holds makes the tokenization fail (it returns the negated token
    count) and [nativeGenerate] return the empty string; after the memory
    reset the tokenization is the only call made, so no part of the prompt
    is ever decoded. *)
Theorem generate_prompt_overflow prompt maxTokens temperature (st : State) c m :
  is_loaded (g_llama st) = true -> ctx (g_llama st) = Some c -> model (g_llama st) = Some m ->
  let o := nativeGenerate prompt maxTokens temperature st in
  let v := vocab (g_llama st) in
  let text := jstring_to_string prompt in
  let n_max := Z.of_nat (llama_n_ctx c) in
  let count := Z.of_nat (List.length (vocab_encode v text true true)) in
  n_max < count ->
  result_of o = string_to_jstring "" /\
  events_of o = memory_reset c ++ [EvTokenize v text n_max true true (- count)] /\
  decodes (events_of o) = [] /\ sampled (events_of o) = [].
Proof.
  intros Hl Hc Hm. cbv zeta. intros Hover.
  rewrite (nativeGenerate_loaded _ _ _ _ c m Hl Hc Hm). cbv zeta.
  rewrite (tokenize_overflow _ _ _ Hover). cbn [fst snd].
  replace (_ <? 0) with true by (symmetry; apply Z.ltb_lt; lia).
  unfold result_of, events_of. cbn [fst snd].
  rewrite decodes_app, sampled_app, decodes_memory_reset, sampled_memory_reset.
  repeat split.
Qed.

(** C10. On a loaded engine with [maxTokens <= 0], [nativeGenerate] returns
    the empty string and samples nothing; it still resets the memory and
    tokenizes the prompt and, when the prompt fits the context, decodes all of
    it as the prefill. *)
Theorem generate_nonpositive_budget prompt maxTokens temperature (st : State) c m :
  is_loaded (g_llama st) = true -> ctx (g_llama st) = Some c -> model (g_llama st) = Some m ->
  maxTokens <= 0 ->
  let o := nativeGenerate prompt maxTokens temperature st in
  let v := vocab (g_llama st) in
  let text := jstring_to_string prompt in
  let n_max := Z.of_nat (llama_n_ctx c) in
  let toks := vocab_encode v text true true in
  result_of o = string_to_jstring "" /\
  sampled (events_of o) = [] /\
  exists n rest,
    events_of o = memory_reset c ++ EvTokenize v text n_max true true n :: rest /\
    (Z.of_nat (List.length toks) <= n_max ->
     exists rc rest', rest = EvDecode c toks rc :: rest').
Proof.
  intros Hl Hc Hm Hmax. cbv zeta.
  rewrite (nativeGenerate_loaded _ _ _ _ c m Hl Hc Hm). cbv zeta.
  replace (Z.to_nat maxTokens) with 0%nat by lia.
  destruct (fst (llama_tokenize _ _ _ _ _) <? 0) eqn:Hneg.
  - unfold result_of, events_of. cbn [fst snd].
    rewrite sampled_app, sampled_memory_reset.
    repeat split. eexists _, _. split; [reflexivity|].
    intros Hfit. exfalso. revert Hneg. unfold llama_tokenize.
    apply Z.leb_le in Hfit. rewrite Hfit. cbn [fst]. intros Hneg.
    apply Z.ltb_lt in Hneg. lia.
  - destruct (tokenize_fits _ _ _ Hneg) as [_ ->].
    destruct (llama_decode c _ _) as [rc w1].
    destruct (negb (rc =? 0)).
    + unfold result_of, events_of. cbn [fst snd].
      rewrite sampled_app, sampled_memory_reset.
      repeat split. eexists _, _. split; [reflexivity|]. intros _. now eexists _, _.
    + destruct (llama_sampler_chain_init _ w1) as [s w2].
      destruct (llama_sampler_init_temp temperature w2) as [s1 w3].
      destruct (llama_sampler_init_dist _ _) as [s2 w5].
      unfold result_of, events_of. cbn [fst snd gen_loop ret app].
      rewrite sampled_app, sampled_memory_reset.
      repeat split. eexists _, _. split; [reflexivity|]. intros _. now eexists _, _.
Qed.

End PromptClaims.

(** ** Loading, reloading and failing to load *)

Section LifecycleClaims.

Context {L : LlamaLib}.

(** C8. Whatever sequence of JNI calls has been made, at no point of the
    history is more than one model alive, and a context is alive only
    together with a model, so there is at most one pair.  And when
    [nativeLoadModel] is called on a loaded engine, its first three library
    calls are, in this order, the release of the current context, the
    release of the current model, and only then the load of the new file;
    once the two releases are done nothing of the earlier load is alive. *)
Theorem one_pair_alive (w : world) (cs : list api_call) :
  let o := run_calls cs (initial w) in
  let st := state_of o in
  let tr := events_of o in
  (forall n,
     0 <= live_contexts (firstn n tr) <= live_models (firstn n tr) /\
     live_models (firstn n tr) <= 1) /\
  (forall modelPath nThreads nCtx,
     is_loaded (g_llama st) = true ->
     exists c m r rest,
       ctx (g_llama st) = Some c /\ model (g_llama st) = Some m /\
       events_of (nativeLoadModel modelPath nThreads nCtx st) =
         EvContextFree c :: EvModelFree m ::
         EvModelLoad (jstring_to_string modelPath) llama_model_default_params r :: rest /\
       live_models (tr ++ [EvContextFree c; EvModelFree m]) = 0 /\
       live_contexts (tr ++ [EvContextFree c; EvModelFree m]) = 0).
Proof.
  cbv zeta. destruct (reachable_tracked w cs) as (Hc & Hm & Hx & Hw).
  split.
  - intros n. pose proof (within_firstn 0 0 _ ltac:(lia) ltac:(lia) Hw n). lia.
  - intros modelPath nThreads nCtx Hl.
    rewrite nativeLoadModel_unfold. cbv zeta.
    destruct (state_of (run_calls cs (initial w))) as [[m0 c0 v0 l0] w0].
    unfold consistent in Hc. cbn in Hc, Hm, Hx, Hl.
    cbn [g_llama model ctx vocab is_loaded lib]. subst l0. destruct Hc as [Hm0 Hc0].
    destruct m0 as [m0|]; [|congruence]. destruct c0 as [c0|]; [|congruence].
    assert (live_models (events_of (run_calls cs (initial w)) ++
                         [EvContextFree c0; EvModelFree m0]) = 0 /\
            live_contexts (events_of (run_calls cs (initial w)) ++
                           [EvContextFree c0; EvModelFree m0]) = 0) as [Lm Lc].
    { rewrite live_models_app, live_contexts_app, Hm, Hx. cbn. lia. }
    destruct (llama_model_load_from_file _ _ _) as [[m|] w1].
    + destruct (llama_init_from_model m _ w1) as [[c|] w2];
        eexists c0, m0, _, _; repeat split; assumption.
    + eexists c0, m0, _, _; repeat split; assumption.
Qed.

(** C9. After any sequence of JNI calls, [nativeLoadModel] returns false
    exactly when the file did not parse as a model or the context could not
    be created for the parsed model.  When it returns false, [nativeIsLoaded]
    answers false afterwards, [g_llama] holds neither a model nor a context,
    and no model and no context is alive; in the second case the model that
    was just parsed is freed as the last call. *)
Theorem load_failure (w : world) (cs : list api_call) modelPath nThreads nCtx :
  let st := state_of (run_calls cs (initial w)) in
  let tr := events_of (run_calls cs (initial w)) in
  let o := nativeLoadModel modelPath nThreads nCtx st in
  let path := jstring_to_string modelPath in
  let parse_failed := In (EvModelLoad path llama_model_default_params None) (events_of o) in
  let alloc_failed := exists m p, In (EvContextInit m p None) (events_of o) in
  (parse_failed \/ alloc_failed <-> result_of o = false) /\
  (result_of o = false ->
     result_of (nativeIsLoaded (state_of o)) = false /\
     model (g_llama (state_of o)) = None /\ ctx (g_llama (state_of o)) = None /\
     live_models (tr ++ events_of o) = 0 /\ live_contexts (tr ++ events_of o) = 0) /\
  (forall m p, In (EvContextInit m p None) (events_of o) ->
     exists pre, events_of o = pre ++ [EvContextInit m p None; EvModelFree m]).
Proof.
  cbv zeta. destruct (reachable_tracked w cs) as (Hc & Hm & Hx & Hw).
  rewrite nativeLoadModel_unfold. cbv zeta.
  rewrite !live_models_app, !live_contexts_app, Hm, Hx. clear Hw Hm Hx.
  destruct (state_of (run_calls cs (initial w))) as [[m0 c0 v0 l0] w0].
  unfold consistent in Hc. cbn in Hc. cbn [g_llama model ctx vocab is_loaded lib].
  assert (Hcases :
    (l0 = true /\ exists m c, m0 = Some m /\ c0 = Some c) \/
    (l0 = false /\ m0 = None /\ c0 = None)).
  { destruct l0; [left | right; tauto]. destruct Hc as [Hm0 Hc0].
    destruct m0, c0; try congruence. eauto 6. }
  clear Hc. destruct Hcases as [(-> & mo & co & -> & ->)|(-> & -> & ->)];
    (destruct (llama_model_load_from_file _ _ _) as [[m|] w1];
     [destruct (llama_init_from_model m _ w1) as [[c|] w2]|]);
    unfold result_of, state_of, events_of; cbn;
    (split; [split|split]).
  (* a cause of failure is among the events exactly when the call returns false *)
  all: try (intros [H|(m' & p' & H)];
            repeat (destruct H as [H|H]; try discriminate H);
            solve [reflexivity | contradiction]).
  all: try (intros H; discriminate H).
  all: try (intros _; solve [left; auto 10 | right; eexists _, _; eauto 10]).
  (* what a failed load leaves behind *)
  all: try (intros _; repeat split; reflexivity).
  (* the parsed model is freed last when the context cannot be created *)
  all: intros m' p' H; repeat (destruct H as [H|H]; try discriminate H);
    try contradiction; injection H as <- <-.
  - now exists [EvContextFree co; EvModelFree mo;
                EvModelLoad (jstring_to_string modelPath) llama_model_default_params (Some m)].
  - now exists [EvModelLoad (jstring_to_string modelPath) llama_model_default_params (Some m)].
Qed.

End LifecycleClaims.

(** ** The sampler chain *)

Section SamplerSetup.

Context {L : LlamaLib}.

(** Whatever the caller passes, the only seed a call of [nativeGenerate]
    ever hands to [llama_sampler_init_dist] is [LLAMA_DEFAULT_SEED]. *)
Lemma generate_seed_is_default prompt maxTokens temperature (st : State) seed s :
  In (EvSamplerInitDist seed s)
     (events_of (nativeGenerate prompt maxTokens temperature st)) ->
  seed = LLAMA_DEFAULT_SEED.
Proof.
  assert (Hloop : forall todo i sm c v acc st0,
            ~ In (EvSamplerInitDist seed s) (events_of (gen_loop todo i sm c v acc st0))).
  { induction todo as [|todo IH]; intros i sm c v acc st0; [intros []|].
    rewrite gen_loop_step.
    destruct (llama_sampler_sample sm c (-1) (lib st0)) as [t w1].
    destruct (llama_vocab_is_eog v t); [intros [H|[]]; discriminate H|].
    destruct (index 0 stop_marker (acc ++ piece_text v t)%string);
      [intros [H|[]]; discriminate H|].
    destruct (llama_decode c [t] w1) as [rc w2].
    destruct (rc =? 0).
    - intros [H|[H|H]]; try discriminate H. exact (IH _ _ _ _ _ _ H).
    - intros [H|[H|[]]]; discriminate H. }
  assert (Hreset : forall c, ~ In (EvSamplerInitDist seed s) (memory_reset c)).
  { intros c. unfold memory_reset.
    destruct (llama_get_memory c); [intros [H|[]]; discriminate H | intros []]. }
  destruct (loaded_or_not (g_llama st)) as [(c & m & Hl & Hc & Hm)|Hno].
  - rewrite (nativeGenerate_loaded _ _ _ _ c m Hl Hc Hm). cbv zeta.
    destruct (fst (llama_tokenize _ _ _ _ _) <? 0).
    { unfold events_of. cbn [snd]. rewrite in_app_iff.
      intros [H|[H|[]]]; [now apply Hreset in H | discriminate H]. }
    destruct (llama_decode c _ _) as [rc w1].
    destruct (negb (rc =? 0)).
    { unfold events_of. cbn [snd]. rewrite in_app_iff.
      intros [H|[H|[H|[]]]]; [now apply Hreset in H | discriminate H ..]. }
    destruct (llama_sampler_chain_init _ w1) as [sm w2].
    destruct (llama_sampler_init_temp temperature w2) as [s1 w3].
    destruct (llama_sampler_init_dist _ _) as [s2 w5].
    unfold events_of at 1. cbn [snd]. rewrite in_app_iff.
    intros [H|H]; [now apply Hreset in H|].
    repeat (destruct H as [H|H]; [first [discriminate H | now injection H] |]).
    apply in_app_iff in H as [H|[H|[]]]; [now apply Hloop in H | discriminate H].
  - rewrite (nativeGenerate_refused _ _ _ _ Hno). intros [].
Qed.

End SamplerSetup.

(** ** Runs on the scripted library *)







(** C3, on a run: nothing was ever loaded. *)
Lemma generate_not_loaded_witness :
  nativeGenerate (L := Fake.lib) (Some "hello"%string) 5 0
    (initial (L := Fake.lib) (Fake.mk_world [72; 105] 10)) =
  (Some ""%string, initial (L := Fake.lib) (Fake.mk_world [72; 105] 10), []).
Proof.
  apply (proj1 (generate_not_loaded (L := Fake.lib) (Some "hello"%string) 5 0)).
  reflexivity.
Defined.

(** A context with no memory object has nothing to clear: on the loaded
    engine of [encoder.gguf] the call starts with the tokenization. *)
Lemma generate_without_memory_object :
  let st := Fake.loaded "encoder.gguf" 32 (Fake.mk_world [72; 105] 10) in
  let o := nativeGenerate (L := Fake.lib) (Some "hello"%string) 8 0 st in
  llama_get_memory (LlamaLib := Fake.lib) ("encoder.gguf"%string, 32) = None /\
  ~ clears_first (events_of o) /\
  nth_error (events_of o) 0 =
    Some (EvTokenize (L := Fake.lib) (Some tt) "hello" 32 true true 5).
Proof.
  cbv zeta. split; [reflexivity|]. split; [|reflexivity].
  intros (mem & rest & H). vm_compute in H. discriminate H.
Defined.


(** C5, on a run: five tokens for a context of four. *)
Lemma generate_prompt_overflow_witness :
  let o := nativeGenerate (L := Fake.lib) (Some "hello"%string) 8 0
             (Fake.loaded "qwen.gguf" 4 (Fake.mk_world [72; 105] 10)) in
  result_of o = Some ""%string /\
  events_of o = [EvMemoryClear (L := Fake.lib) tt true;
                 EvTokenize (L := Fake.lib) (Some tt) "hello" 4 true true (-5)] /\
  decodes (events_of o) = [] /\ sampled (events_of o) = [].
Proof.
  apply (generate_prompt_overflow (L := Fake.lib) (Some "hello"%string) 8 0
           (Fake.loaded "qwen.gguf" 4 (Fake.mk_world [72; 105] 10))
           ("qwen.gguf"%string, 4) "qwen.gguf"%string); [reflexivity .. | vm_compute; reflexivity].
Defined.

(** C10, on a run: a negative budget. *)
Lemma generate_nonpositive_budget_witness :
  let o := nativeGenerate (L := Fake.lib) (Some "hello"%string) (-3) 0
             (Fake.loaded "qwen.gguf" 32 (Fake.mk_world [72; 105] 10)) in
  result_of o = Some ""%string /\
  sampled (events_of o) = [] /\
  exists n rest,
    events_of o = [EvMemoryClear (L := Fake.lib) tt true] ++
                  EvTokenize (L := Fake.lib) (Some tt) "hello" 32 true true n :: rest /\
    (5 <= 32 ->
     exists rc rest',
       rest = EvDecode (L := Fake.lib) ("qwen.gguf"%string, 32) [104; 101; 108; 108; 111] rc
              :: rest').
Proof.
  apply (generate_nonpositive_budget (L := Fake.lib) (Some "hello"%string) (-3) 0
           (Fake.loaded "qwen.gguf" 32 (Fake.mk_world [72; 105] 10))
           ("qwen.gguf"%string, 32) "qwen.gguf"%string); [reflexivity .. | lia].
Defined.

(** C8, on a run: a second load on a loaded engine. *)
Lemma one_pair_alive_witness :
  let o := run_calls (L := Fake.lib)
             [CallInit; CallLoadModel (Some "a.gguf"%string) 4 32; CallIsLoaded]
             (initial (L := Fake.lib) (Fake.mk_world [] 0)) in
  exists c m r rest,
    ctx (g_llama (state_of o)) = Some c /\ model (g_llama (state_of o)) = Some m /\
    events_of (nativeLoadModel (Some "b.gguf"%string) 4 64 (state_of o)) =
      EvContextFree c :: EvModelFree m ::
      EvModelLoad "b.gguf" (llama_model_default_params (LlamaLib := Fake.lib)) r :: rest /\
    live_models (events_of o ++ [EvContextFree c; EvModelFree m]) = 0 /\
    live_contexts (events_of o ++ [EvContextFree c; EvModelFree m]) = 0.
Proof.
  apply (proj2 (one_pair_alive (L := Fake.lib) (Fake.mk_world [] 0)
                  [CallInit; CallLoadModel (Some "a.gguf"%string) 4 32; CallIsLoaded])
               (Some "b.gguf"%string) 4 64).
  reflexivity.
Defined.

(** C9, on a run: a missing file, tried on a loaded engine. *)
Lemma load_failure_witness :
  let o := run_calls (L := Fake.lib)
             [CallInit; CallLoadModel (Some "a.gguf"%string) 4 32]
             (initial (L := Fake.lib) (Fake.mk_world [] 0)) in
  let o' := nativeLoadModel (Some ""%string) 4 32 (state_of o) in
  result_of (nativeIsLoaded (state_of o')) = false /\
  model (g_llama (state_of o')) = None /\ ctx (g_llama (state_of o')) = None /\
  live_models (events_of o ++ events_of o') = 0 /\
  live_contexts (events_of o ++ events_of o') = 0.
Proof.
  apply (proj1 (proj2 (load_failure (L := Fake.lib) (Fake.mk_world [] 0)
                         [CallInit; CallLoadModel (Some "a.gguf"%string) 4 32]
                         (Some ""%string) 4 32))).
  reflexivity.
Defined.

(** ** More on the lifecycle: release, query, successful load *)

Section LifecycleMore.

Context {L : LlamaLib}.

Lemma nativeIsLoaded_unfold (st : State) :
  nativeIsLoaded st = (is_loaded (g_llama st), st, []).
Proof.
  unfold nativeIsLoaded, bind, get_g, ret. cbn. now destruct (is_loaded (g_llama st)).
Qed.

(** X1. [nativeFree] after any sequence of JNI calls: it frees the context, then
    the model, when the engine holds them, and the backend last; afterwards
    [g_llama] holds nothing, [nativeIsLoaded] answers false, and no model and
    no context is alive. *)
Theorem free_releases_all (w : world) (cs : list api_call) :
  let o := run_calls cs (initial w) in
  let g := g_llama (state_of o) in
  let o' := nativeFree (state_of o) in
  (is_loaded g = false /\ events_of o' = [EvBackendFree] \/
   exists c m, is_loaded g = true /\ ctx g = Some c /\ model g = Some m /\
               events_of o' = [EvContextFree c; EvModelFree m; EvBackendFree]) /\
  model (g_llama (state_of o')) = None /\ ctx (g_llama (state_of o')) = None /\
  result_of (nativeIsLoaded (state_of o')) = false /\
  live_models (events_of o ++ events_of o') = 0 /\
  live_contexts (events_of o ++ events_of o') = 0.
Proof.
  cbv zeta. destruct (reachable_tracked w cs) as (Hc & Hm & Hx & _).
  rewrite nativeFree_unfold. cbv zeta.
  rewrite live_models_app, live_contexts_app, Hm, Hx. clear Hm Hx.
  destruct (state_of (run_calls cs (initial w))) as [[m0 c0 v0 l0] w0].
  unfold consistent in Hc. cbn in Hc. cbn [g_llama model ctx vocab is_loaded lib].
  destruct l0.
  - destruct Hc as [Hm0 Hc0].
    destruct m0 as [m0|]; [|congruence]. destruct c0 as [c0|]; [|congruence].
    cbn. repeat split. right. now exists c0, m0.
  - destruct Hc as [-> ->]. cbn. repeat split. now left.
Qed.

(** X2. Calling [nativeFree] again, from any state: the second call frees no
    context and no model, it only frees the backend once more, and leaves
    [g_llama] as the first call left it. *)
Theorem free_twice_frees_once (st : State) :
  let o1 := nativeFree st in
  let o2 := nativeFree (state_of o1) in
  events_of o2 = [EvBackendFree] /\
  g_llama (state_of o2) = g_llama (state_of o1) /\
  is_loaded (g_llama (state_of o2)) = false.
Proof.
  cbv zeta. rewrite (nativeFree_unfold (state_of (nativeFree st))).
  rewrite (nativeFree_unfold st). cbv zeta. repeat split.
Qed.

(** X3. [nativeIsLoaded] after any sequence of JNI calls: it changes nothing and
    calls nothing; it answers true exactly when [g_llama] holds both a model
    and a context, which is exactly when [nativeGenerate] gets past its guard
    and calls into the library. *)
Theorem is_loaded_exact (w : world) (cs : list api_call) prompt maxTokens temperature :
  let st := state_of (run_calls cs (initial w)) in
  let o := nativeIsLoaded st in
  state_of o = st /\ events_of o = [] /\
  (result_of o = true <->
   exists m c, model (g_llama st) = Some m /\ ctx (g_llama st) = Some c) /\
  (result_of o = true <->
   events_of (nativeGenerate prompt maxTokens temperature st) <> []).
Proof.
  cbv zeta. destruct (reachable_tracked w cs) as (Hc & _).
  set (st := state_of (run_calls cs (initial w))) in *.
  rewrite nativeIsLoaded_unfold. split; [reflexivity|]. split; [reflexivity|].
  unfold result_of at 1 2. cbn [fst].
  unfold consistent in Hc.
  destruct (is_loaded (g_llama st)) eqn:Hl.
  - destruct Hc as [Hm0 Hc0].
    destruct (model (g_llama st)) as [m|] eqn:Hm; [|congruence].
    destruct (ctx (g_llama st)) as [c|] eqn:Hx; [|congruence].
    split; [split; [intros _; now exists m, c | reflexivity]|].
    split; [intros _ | reflexivity].
    rewrite (nativeGenerate_loaded _ _ _ _ c m Hl Hx Hm). cbv zeta.
    destruct (fst (llama_tokenize _ _ _ _ _) <? 0).
    { unfold events_of. cbn [snd]. intros H. now apply app_eq_nil in H as [_ H]. }
    destruct (llama_decode c _ _) as [rc w1].
    destruct (negb (rc =? 0)).
    { unfold events_of. cbn [snd]. intros H. now apply app_eq_nil in H as [_ H]. }
    destruct (llama_sampler_chain_init _ w1) as [s w2].
    destruct (llama_sampler_init_temp temperature w2) as [s1 w3].
    destruct (llama_sampler_init_dist _ _) as [s2 w5].
    unfold events_of at 1. cbn [snd]. intros H. now apply app_eq_nil in H as [_ H].
  - destruct Hc as [Hm0 Hc0]. split.
    + split; [discriminate | intros (m & c & Hm & _); congruence].
    + rewrite (nativeGenerate_refused _ _ _ st (or_introl Hl)).
      split; [discriminate | intros H; now destruct H].
Qed.

(** X4. A successful [nativeLoadModel] after any sequence of JNI calls: its last
    two library calls are the load of the file and the creation of a context
    from the model just loaded, with the caller's thread count for both
    thread parameters and the caller's capacity; whatever precedes them is
    the release of the previous pair.  Afterwards [g_llama] holds that model,
    its vocabulary and that context, [nativeIsLoaded] answers true, and
    exactly one model and one context are alive. *)
Theorem load_success (w : world) (cs : list api_call) modelPath nThreads nCtx :
  let st := state_of (run_calls cs (initial w)) in
  let tr := events_of (run_calls cs (initial w)) in
  let o := nativeLoadModel modelPath nThreads nCtx st in
  result_of o = true ->
  exists m c pre,
    events_of o =
      pre ++ [EvModelLoad (jstring_to_string modelPath) llama_model_default_params (Some m);
              EvContextInit m (load_context_params nThreads nCtx) (Some c)] /\
    Forall (fun e => ~ no_release e) pre /\
    g_llama (state_of o) =
      {| model := Some m; ctx := Some c; vocab := llama_model_get_vocab m;
         is_loaded := true |} /\
    result_of (nativeIsLoaded (state_of o)) = true /\
    live_models (tr ++ events_of o) = 1 /\ live_contexts (tr ++ events_of o) = 1.
Proof.
  cbv zeta. destruct (reachable_tracked w cs) as (Hc & Hm & Hx & _).
  rewrite nativeLoadModel_unfold. cbv zeta.
  rewrite !live_models_app, !live_contexts_app, Hm, Hx. clear Hm Hx.
  destruct (state_of (run_calls cs (initial w))) as [[m0 c0 v0 l0] w0].
  unfold consistent in Hc. cbn in Hc. cbn [g_llama model ctx vocab is_loaded lib].
  destruct l0.
  - destruct Hc as [Hm0 Hc0].
    destruct m0 as [m0|]; [|congruence]. destruct c0 as [c0|]; [|congruence].
    destruct (llama_model_load_from_file _ _ _) as [[m|] w1]; [|discriminate].
    destruct (llama_init_from_model m _ w1) as [[c|] w2]; [|discriminate].
    intros _. exists m, c, [EvContextFree c0; EvModelFree m0]. cbn.
    repeat split. repeat constructor; intros H; exact H.
  - destruct Hc as [-> ->].
    destruct (llama_model_load_from_file _ _ _) as [[m|] w1]; [|discriminate].
    destruct (llama_init_from_model m _ w1) as [[c|] w2]; [|discriminate].
    intros _. exists m, c, []. cbn. repeat split. constructor.
Qed.

End LifecycleMore.

(** ** Where the held handles come from, and which calls can change them *)

Section Provenance.

Context {L : LlamaLib}.

Lemma quiet_no_release (e : event) : quiet e -> no_release e.
Proof. destruct e; cbn; intros [Hm Hc]; try exact I; discriminate. Qed.

Lemma provenance_extend g tr evs :
  provenance g tr -> Forall no_release evs -> provenance g (tr ++ evs).
Proof.
  intros H Hq Hl. destruct (H Hl) as (m & c & path & p & pre & post & Hm & Hc & Hv & -> & Hpost).
  exists m, c, path, p, pre, (post ++ evs). repeat split; try assumption.
  - now rewrite <- app_assoc.
  - apply Forall_app. now split.
Qed.

Lemma api_step_provenance (c : api_call) (st : State) tr :
  provenance (g_llama st) tr ->
  provenance (g_llama (state_of (api_step c st))) (tr ++ events_of (api_step c st)).
Proof.
  intros H. destruct c as [|path nt nc|p mt t| |]; cbn [api_step].
  - apply (provenance_extend _ _ [EvBackendInit] H). repeat constructor.
  - rewrite bind_state, bind_events, ret_state, ret_events, app_nil_r.
    rewrite nativeLoadModel_unfold. cbv zeta.
    destruct (llama_model_load_from_file _ _ _) as [[m|] w1]; [|intros Hl; discriminate Hl].
    destruct (llama_init_from_model m _ w1) as [[c|] w2]; [|intros Hl; discriminate Hl].
    intros _. unfold state_of, events_of. cbn [fst snd g_llama model ctx vocab].
    eexists m, c, _, _, (tr ++ _), []. repeat split.
    + now rewrite <- app_assoc.
    + constructor.
  - rewrite bind_state, bind_events, ret_state, ret_events, app_nil_r, nativeGenerate_g.
    apply (provenance_extend _ _ _ H).
    eapply Forall_impl; [exact quiet_no_release | apply nativeGenerate_quiet].
  - rewrite bind_state, bind_events, ret_state, ret_events, nativeIsLoaded_unfold.
    cbn. now rewrite app_nil_r.
  - rewrite nativeFree_unfold. intros Hl. discriminate Hl.
Qed.

Lemma run_calls_provenance (cs : list api_call) : forall (st : State) tr,
  provenance (g_llama st) tr ->
  provenance (g_llama (state_of (run_calls cs st))) (tr ++ events_of (run_calls cs st)).
Proof.
  induction cs as [|c cs IH]; intros st tr H.
  - cbn. now rewrite app_nil_r.
  - cbn [run_calls]. rewrite bind_state, bind_events, app_assoc.
    apply IH. now apply api_step_provenance.
Qed.

(** X5. After any sequence of JNI calls, an engine that says it is loaded holds
    a model the library returned from a load, the vocabulary of that very
    model, and a context the library created from that model in the next
    call; no model and no context has been freed since, so every handle
    [nativeGenerate] passes to the library is that of a live object. *)
Theorem held_pair_provenance (w : world) (cs : list api_call) :
  let o := run_calls cs (initial w) in
  let g := g_llama (state_of o) in
  is_loaded g = true ->
  exists m c path p pre post,
    model g = Some m /\ ctx g = Some c /\ vocab g = llama_model_get_vocab m /\
    events_of o = pre ++ EvModelLoad path llama_model_default_params (Some m)
                      :: EvContextInit m p (Some c) :: post /\
    Forall no_release post.
Proof.
  cbv zeta. apply (run_calls_provenance cs (initial w) []).
  intros Hl. discriminate Hl.
Qed.

(** X6. [nativeInit], [nativeGenerate] and [nativeIsLoaded], in any number and
    order and from any state, leave [g_llama] exactly as it was: only
    [nativeLoadModel] and [nativeFree] can load or unload.  Their library
    calls create and free no model and no context, and [nativeIsLoaded]
    answers afterwards what it answered before. *)
Theorem reads_only_keep_engine (cs : list api_call) (st : State) :
  Forall reads_only cs ->
  let o := run_calls cs st in
  g_llama (state_of o) = g_llama st /\
  Forall quiet (events_of o) /\
  result_of (nativeIsLoaded (state_of o)) = result_of (nativeIsLoaded st).
Proof.
  intros H. cbv zeta.
  assert (g_llama (state_of (run_calls cs st)) = g_llama st /\
          Forall quiet (events_of (run_calls cs st))) as [Hg Hq].
  { revert st. induction H as [|c cs Hc _ IH]; intros st.
    - split; [reflexivity | constructor].
    - cbn [run_calls]. rewrite bind_state, bind_events.
      destruct (IH (state_of (api_step c st))) as [IHg IHq]. rewrite IHg.
      assert (g_llama (state_of (api_step c st)) = g_llama st /\
              Forall quiet (events_of (api_step c st))) as [Sg Sq].
      { destruct c as [|path nt nc|p mt t| |]; cbn [api_step]; try contradiction.
        - split; [reflexivity | repeat constructor].
        - rewrite bind_state, bind_events, ret_state, ret_events, app_nil_r.
          split; [apply nativeGenerate_g | apply nativeGenerate_quiet].
        - rewrite bind_state, bind_events, ret_state, ret_events, nativeIsLoaded_unfold.
          split; [reflexivity | constructor]. }
      split; [exact Sg | apply Forall_app; now split]. }
  repeat split; try assumption.
  rewrite !nativeIsLoaded_unfold. unfold result_of. cbn [fst]. now rewrite Hg.
Qed.

End Provenance.

(** ** More on the generation loop *)

Section LoopMore.

Context {L : LlamaLib}.





Lemma gen_loop_events (todo : nat) : forall i s c v acc st,
  Forall (loop_event s c) (events_of (gen_loop todo i s c v acc st)).
Proof.
  induction todo as [|todo IH]; intros i s c v acc st; [constructor|].
  rewrite gen_loop_step.
  destruct (llama_sampler_sample s c (-1) (lib st)) as [t w1].
  destruct (llama_vocab_is_eog v t); [repeat constructor|].
  destruct (index 0 stop_marker (acc ++ piece_text v t)%string); [repeat constructor|].
  destruct (llama_decode c [t] w1) as [rc w2].
  destruct (rc =? 0).
  - cbn. constructor; [repeat split|]. constructor; [split; eauto|]. apply IH.
  - repeat constructor. cbn. eauto.
Qed.

Variable v : option llama_vocab.


Lemma loop_run_feedback todo acc ts ds r :
  loop_run v todo acc ts ds r ->
  (List.length ds <= List.length ts <= S (List.length ds))%nat /\
  forall i b rc, nth_error ds i = Some (b, rc) ->
    (exists t, nth_error ts i = Some t /\ b = [t] /\ llama_vocab_is_eog v t = false /\
               ~ occurs stop_marker (acc ++ pieces v (firstn (S i) ts))) /\
    ((S i < List.length ds)%nat -> rc = 0).
Proof.
  induction 1 as [acc|todo acc t0 He|todo acc t0 pos He Hi|todo acc t0 rc0 He Hi Hrc
                 |todo acc t0 ts ds r He Hi Hrun IH].
  - split; [simpl; lia | intros [|i] b rc H; discriminate H].
  - split; [simpl; lia | intros [|i] b rc H; discriminate H].
  - split; [simpl; lia | intros [|i] b rc H; discriminate H].
  - split; [simpl; lia|]. intros [|i] b rc H; [|destruct i; discriminate H].
    injection H as <- <-. split; [|simpl; lia].
    exists t0. repeat split; try assumption.
    simpl. rewrite append_empty_r.
    intros (pre & post & Hs). exact (index_not_found _ _ Hi pre post Hs).
  - destruct IH as [Hlen IH]. split; [simpl; lia|].
    intros [|i] b rc H.
    + injection H as <- <-. split; [|reflexivity].
      exists t0. repeat split; try assumption.
      simpl. rewrite append_empty_r.
      intros (pre & post & Hs). exact (index_not_found _ _ Hi pre post Hs).
    + destruct (IH i b rc H) as [(t & Ht & Hb & Hne & Hno) Hrc0]. split.
      * exists t. repeat split; try assumption.
        change (firstn (S (S i)) (t0 :: ts)) with (t0 :: firstn (S i) ts).
        simpl pieces. now rewrite <- append_assoc.
      * intros Hlt. apply Hrc0. simpl in Hlt. lia.
Qed.

Lemma loop_run_early todo acc ts ds r :
  loop_run v todo acc ts ds r ->
  (List.length ts < todo)%nat ->
  exists t, nth_error ts (List.length ts - 1) = Some t /\
    (llama_vocab_is_eog v t = true \/
     llama_vocab_is_eog v t = false /\ occurs stop_marker (acc ++ pieces v ts) \/
     exists rc, nth_error ds (List.length ts - 1) = Some ([t], rc) /\ rc <> 0).
Proof.
  induction 1 as [acc|todo acc t0 He|todo acc t0 pos He Hi|todo acc t0 rc0 He Hi Hrc
                 |todo acc t0 ts ds r He Hi Hrun IH]; intros Hlt.
  - simpl in Hlt. lia.
  - exists t0. split; [reflexivity | now left].
  - exists t0. split; [reflexivity|]. right. left. split; [assumption|].
    destruct (index_found _ _ _ Hi) as ([post Hs] & _ & _).
    simpl. rewrite append_empty_r. now exists (substring 0 pos (acc ++ piece_text v t0)), post.
  - exists t0. split; [reflexivity|]. right. right. now exists rc0.
  - destruct IH as (t & Ht & Hcause); [simpl in Hlt; lia|].
    assert (List.length ts <> 0)%nat as Hne by (destruct ts; [discriminate Ht | discriminate]).
    assert (Hidx : (List.length (t0 :: ts) - 1 = S (List.length ts - 1))%nat)
      by (simpl; lia).
    rewrite Hidx. exists t. split; [exact Ht|].
    destruct Hcause as [H|[[H1 H2]|(rc & H1 & H2)]].
    + now left.
    + right. left. split; [assumption|]. simpl. now rewrite <- append_assoc.
    + right. right. now exists rc.
Qed.

End LoopMore.

(** ** More on [nativeGenerate] *)

Section GenerateMore.

Context {L : LlamaLib}.

Lemma loop_event_on_context s c e : loop_event s c e -> on_context c e.
Proof. destruct e; cbn; intuition. Qed.

Lemma loop_event_not_admin s c e : loop_event s c e -> ~ sampler_admin e.
Proof. destruct e; cbn; intuition. Qed.

Lemma memory_reset_on_context c : Forall (on_context c) (memory_reset c).
Proof.
  unfold memory_reset. destruct (llama_get_memory c) eqn:H; repeat constructor. exact H.
Qed.

Lemma memory_reset_not_admin c : Forall (fun e => ~ sampler_admin e) (memory_reset c).
Proof.
  unfold memory_reset. destruct (llama_get_memory c); repeat constructor. intros H; exact H.
Qed.

(** X7. The sampler chain of a call.  Either [nativeGenerate] never touches the
    sampler interface and samples nothing, or its calls are, in order: what
    precedes the chain (no sampler call), the construction of one chain from
    a temperature stage with the caller's temperature and then a draw stage
    with [LLAMA_DEFAULT_SEED], the loop, which only draws from that chain at
    position [-1] and decodes single tokens, and last the release of that
    chain.  So a chain that is built is freed exactly once, by whichever way
    the loop is left. *)
Theorem sampler_chain_lifecycle prompt maxTokens temperature (st : State) :
  let evs := events_of (nativeGenerate prompt maxTokens temperature st) in
  (Forall (fun e => ~ sampler_admin e) evs /\ sampled evs = []) \/
  exists pre s s1 s2 body c,
    evs = pre ++ chain_setup temperature s s1 s2 ++ body ++ [EvSamplerFree s] /\
    Forall (fun e => ~ sampler_admin e) pre /\ sampled pre = [] /\
    Forall (loop_event s c) body.
Proof.
  cbv zeta.
  destruct (loaded_or_not (g_llama st)) as [(c & m & Hl & Hc & Hm)|Hno].
  - rewrite (nativeGenerate_loaded _ _ _ _ c m Hl Hc Hm). cbv zeta.
    destruct (fst (llama_tokenize _ _ _ _ _) <? 0).
    { left. unfold events_of. cbn [snd]. split.
      - apply Forall_app. split; [apply memory_reset_not_admin|].
        repeat constructor. intros H; exact H.
      - now rewrite sampled_app, sampled_memory_reset. }
    destruct (llama_decode c _ _) as [rc w1].
    destruct (negb (rc =? 0)).
    { left. unfold events_of. cbn [snd]. split.
      - apply Forall_app. split; [apply memory_reset_not_admin|].
        repeat constructor; intros H; exact H.
      - now rewrite sampled_app, sampled_memory_reset. }
    destruct (llama_sampler_chain_init _ w1) as [s w2].
    destruct (llama_sampler_init_temp temperature w2) as [s1 w3].
    destruct (llama_sampler_init_dist _ _) as [s2 w5].
    right. unfold events_of at 1. cbn [snd].
    eexists (memory_reset c ++ [_; _]), s, s1, s2, _, c. repeat split.
    + rewrite <- app_assoc. reflexivity.
    + apply Forall_app. split; [apply memory_reset_not_admin|].
      repeat constructor; intros H; exact H.
    + now rewrite sampled_app, sampled_memory_reset.
    + apply gen_loop_events.
  - rewrite (nativeGenerate_refused _ _ _ _ Hno). left. split; constructor.
Qed.

(** X8. Every library call of [nativeGenerate] concerns the context [g_llama]
    holds: the memory it clears is that context's, with the data flag set;
    the prompt is tokenized against that context's capacity with
    [add_special] and [parse_special] both true; every decode and every
    sample is on that context, samples at position [-1].  It never loads,
    creates or frees a model or a context and never touches the backend. *)
Theorem generate_on_held_context prompt maxTokens temperature (st : State) c :
  ctx (g_llama st) = Some c ->
  Forall (on_context c) (events_of (nativeGenerate prompt maxTokens temperature st)).
Proof.
  intros Hc.
  destruct (loaded_or_not (g_llama st)) as [(c' & m & Hl & Hc' & Hm)|Hno].
  - assert (c' = c) as -> by congruence.
    rewrite (nativeGenerate_loaded _ _ _ _ c m Hl Hc Hm). cbv zeta.
    destruct (fst (llama_tokenize _ _ _ _ _) <? 0).
    { apply Forall_app. split; [apply memory_reset_on_context|]. repeat constructor. }
    destruct (llama_decode c _ _) as [rc w1].
    destruct (negb (rc =? 0)).
    { apply Forall_app. split; [apply memory_reset_on_context|]. repeat constructor. }
    destruct (llama_sampler_chain_init _ w1) as [s w2].
    destruct (llama_sampler_init_temp temperature w2) as [s1 w3].
    destruct (llama_sampler_init_dist _ _) as [s2 w5].
    unfold events_of at 1. cbn [snd].
    apply Forall_app. split; [apply memory_reset_on_context|].
    do 7 (constructor; [cbn; auto|]).
    apply Forall_app. split; [|repeat constructor].
    eapply Forall_impl; [apply loop_event_on_context | apply gen_loop_events].
  - rewrite (nativeGenerate_refused _ _ _ _ Hno). constructor.
Qed.



(** X10. How generated tokens are fed back.  After the prefill, the decode
    numbered [i + 1] is the decode of exactly the token sampled at iteration
    [i], alone in its batch; that token is not an end-of-generation token and
    the text accumulated through it does not contain the stop marker.  Besides
    the prefill there is at most one decode per sampled token, every sampled
    token but possibly the last is decoded, and every decode of a call but its
    last one returned 0. *)
Theorem fed_back_tokens prompt maxTokens temperature (st : State) :
  let o := nativeGenerate prompt maxTokens temperature st in
  let v := vocab (g_llama st) in
  let ts := sampled (events_of o) in
  let ds := decodes (events_of o) in
  (List.length ts <= List.length ds <= S (List.length ts))%nat /\
  (forall i batch rc, nth_error ds (S i) = Some (batch, rc) ->
     exists t, nth_error ts i = Some t /\ batch = [t] /\
               llama_vocab_is_eog v t = false /\
               ~ occurs stop_marker (pieces v (firstn (S i) ts))) /\
  (forall i batch rc, nth_error ds i = Some (batch, rc) ->
     (S i < List.length ds)%nat -> rc = 0).
Proof.
  cbv zeta. pose proof (nativeGenerate_run prompt maxTokens temperature st) as H.
  cbv zeta in H.
  destruct H as [|batch0 rc0 Hrc0|batch0 ts ds r Hrun].
  - split; [simpl; lia | split; intros [|i] b rc H; discriminate H].
  - split; [simpl; lia | split; [intros [|i] b rc H; discriminate H|]].
    intros [|i] b rc H Hlt; [simpl in Hlt; lia | destruct i; discriminate H].
  - destruct (loop_run_feedback _ _ _ _ _ _ Hrun) as [Hlen Hfb].
    split; [simpl; lia | split].
    + intros i b rc H. cbn in H. destruct (Hfb i b rc H) as [Ht _]. exact Ht.
    + intros [|i] b rc H Hlt; [now injection H as _ <-|].
      cbn in H. destruct (Hfb i b rc H) as [_ Hz]. apply Hz. simpl in Hlt. lia.
Qed.

(** X11. Why a call stops early.  If the prefill succeeded and fewer tokens were
    sampled than [maxTokens] allows, then the last sampled token ended the
    loop: it is an end-of-generation token, or the text accumulated through
    it contains the stop marker, or its decode failed.  Put the other way
    round, the loop goes on to the full budget unless one of these happens. *)
Theorem early_stop_has_cause prompt maxTokens temperature (st : State) :
  let o := nativeGenerate prompt maxTokens temperature st in
  let v := vocab (g_llama st) in
  let ts := sampled (events_of o) in
  let ds := decodes (events_of o) in
  forall batch, nth_error ds 0 = Some (batch, 0) ->
  (List.length ts < Z.to_nat maxTokens)%nat ->
  exists t, nth_error ts (List.length ts - 1) = Some t /\
    (llama_vocab_is_eog v t = true \/
     llama_vocab_is_eog v t = false /\ occurs stop_marker (pieces v ts) \/
     exists rc, nth_error ds (List.length ts) = Some ([t], rc) /\ rc <> 0).
Proof.
  cbv zeta. pose proof (nativeGenerate_run prompt maxTokens temperature st) as H.
  cbv zeta in H.
  destruct H as [|batch0 rc0 Hrc0|batch0 ts ds r Hrun]; intros batch Hpre Hlt.
  - discriminate Hpre.
  - injection Hpre as _ Hz. congruence.
  - destruct (loop_run_early _ _ _ _ _ _ Hrun Hlt) as (t & Ht & Hcause).
    exists t. split; [exact Ht|].
    destruct Hcause as [Hc|[Hc|(rc & Hd & Hrc)]]; [now left | now right; left|].
    right. right. exists rc. split; [|exact Hrc].
    assert (List.length ts <> 0)%nat by (destruct ts; [discriminate Ht | discriminate]).
    replace (List.length ts) with (S (List.length ts - 1)) at 1 by lia. exact Hd.
Qed.

(** X12. The prefill.  On a loaded engine, a prompt whose encoding fits the
    context is tokenized in full and decoded in full, as one batch, right
    after the memory reset; this holds for every value of [maxTokens] and also
    for an empty batch, which the bridge does not filter out. *)
Theorem prefill_is_encoded_prompt prompt maxTokens temperature (st : State) c m :
  is_loaded (g_llama st) = true -> ctx (g_llama st) = Some c -> model (g_llama st) = Some m ->
  let o := nativeGenerate prompt maxTokens temperature st in
  let v := vocab (g_llama st) in
  let text := jstring_to_string prompt in
  let n_max := Z.of_nat (llama_n_ctx c) in
  let toks := vocab_encode v text true true in
  Z.of_nat (List.length toks) <= n_max ->
  exists rc rest,
    events_of o =
      memory_reset c ++
      EvTokenize v text n_max true true (Z.of_nat (List.length toks)) ::
      EvDecode c toks rc :: rest.
Proof.
  intros Hl Hc Hm. cbv zeta. intros Hfit.
  rewrite (nativeGenerate_loaded _ _ _ _ c m Hl Hc Hm). cbv zeta.
  assert (Hneg : (fst (llama_tokenize (vocab (g_llama st)) (jstring_to_string prompt)
                         (Z.of_nat (llama_n_ctx c)) true true) <? 0) = false).
  { unfold llama_tokenize. apply Z.leb_le in Hfit. rewrite Hfit. cbn [fst].
    apply Z.ltb_ge. lia. }
  rewrite Hneg. destruct (tokenize_fits _ _ _ Hneg) as [-> ->].
  destruct (llama_decode c _ _) as [rc w1].
  destruct (negb (rc =? 0)); [now eexists _, _|].
  destruct (llama_sampler_chain_init _ w1) as [s w2].
  destruct (llama_sampler_init_temp temperature w2) as [s1 w3].
  destruct (llama_sampler_init_dist _ _) as [s2 w5].
  now eexists _, _.
Qed.

End GenerateMore.

(** ** More runs on the scripted library *)

(** A loaded engine answers true and holds a pair. *)
Lemma is_loaded_exact_witness :
  let st := state_of (run_calls (L := Fake.lib)
                        [CallInit; CallLoadModel (Some "a.gguf"%string) 4 32]
                        (initial (L := Fake.lib) (Fake.mk_world [] 0))) in
  exists m c, model (g_llama st) = Some m /\ ctx (g_llama st) = Some c.
Proof.
  apply (proj1 (proj1 (proj2 (proj2
           (is_loaded_exact (L := Fake.lib) (Fake.mk_world [] 0)
              [CallInit; CallLoadModel (Some "a.gguf"%string) 4 32]
              (Some "hello"%string) 1 0))))).
  reflexivity.
Defined.

(** A second load that succeeds, on a loaded engine. *)
Lemma load_success_witness :
  let o0 := run_calls (L := Fake.lib)
              [CallInit; CallLoadModel (Some "a.gguf"%string) 4 32]
              (initial (L := Fake.lib) (Fake.mk_world [] 0)) in
  let o := nativeLoadModel (Some "b.gguf"%string) 2 64 (state_of o0) in
  result_of (nativeIsLoaded (state_of o)) = true /\
  live_models (events_of o0 ++ events_of o) = 1 /\
  live_contexts (events_of o0 ++ events_of o) = 1.
Proof.
  destruct (load_success (L := Fake.lib) (Fake.mk_world [] 0)
              [CallInit; CallLoadModel (Some "a.gguf"%string) 4 32]
              (Some "b.gguf"%string) 2 64 eq_refl)
    as (m & c & pre & _ & _ & _ & H1 & H2 & H3).
  repeat split; assumption.
Defined.

(** Two loads with generations in between: the vocabulary held at the end is
    that of the model held at the end. *)
Lemma held_pair_provenance_witness :
  let g := g_llama (state_of (run_calls (L := Fake.lib)
             [CallInit; CallLoadModel (Some "a.gguf"%string) 4 32;
              CallGenerate (L := Fake.lib) (Some "hello"%string) 3 0;
              CallLoadModel (Some "b.gguf"%string) 4 64;
              CallGenerate (L := Fake.lib) (Some "hello"%string) 3 0]
             (initial (L := Fake.lib) (Fake.mk_world [72; 105] 10)))) in
  exists m c, model g = Some m /\ ctx g = Some c /\
              vocab g = llama_model_get_vocab (LlamaLib := Fake.lib) m.
Proof.
  destruct (held_pair_provenance (L := Fake.lib) (Fake.mk_world [72; 105] 10)
              [CallInit; CallLoadModel (Some "a.gguf"%string) 4 32;
               CallGenerate (L := Fake.lib) (Some "hello"%string) 3 0;
               CallLoadModel (Some "b.gguf"%string) 4 64;
               CallGenerate (L := Fake.lib) (Some "hello"%string) 3 0] eq_refl)
    as (m & c & path & p & pre & post & Hm & Hc & Hv & _).
  exists m, c. repeat split; assumption.
Defined.

(** An init, a generation and a query on a loaded engine. *)
Lemma reads_only_keep_engine_witness :
  let st := Fake.loaded "qwen.gguf" 32 (Fake.mk_world [72; 105] 10) in
  let o := run_calls (L := Fake.lib)
             [CallInit; CallGenerate (L := Fake.lib) (Some "hello"%string) 3 0; CallIsLoaded] st in
  g_llama (state_of o) = g_llama st /\
  Forall quiet (events_of o) /\
  result_of (nativeIsLoaded (state_of o)) = result_of (nativeIsLoaded st).
Proof.
  apply (reads_only_keep_engine (L := Fake.lib)
           [CallInit; CallGenerate (L := Fake.lib) (Some "hello"%string) 3 0; CallIsLoaded]
           (Fake.loaded "qwen.gguf" 32 (Fake.mk_world [72; 105] 10))).
  repeat constructor.
Defined.

(** A whole generation on the context of [qwen.gguf]. *)
Lemma generate_on_held_context_witness :
  Forall (on_context (L := Fake.lib) ("qwen.gguf"%string, 32))
    (events_of (nativeGenerate (L := Fake.lib) (Some "hello"%string) 8 0
                  (Fake.loaded "qwen.gguf" 32 (Fake.mk_world [72; 105] 10)))).
Proof.
  apply (generate_on_held_context (L := Fake.lib) (Some "hello"%string) 8 0
           (Fake.loaded "qwen.gguf" 32 (Fake.mk_world [72; 105] 10))
           ("qwen.gguf"%string, 32)).
  reflexivity.
Defined.

(** The second incremental decode feeds back the second sampled token. *)
Lemma fed_back_tokens_witness :
  let o := nativeGenerate (L := Fake.lib) (Some "hello"%string) 20 0
             (Fake.loaded "qwen.gguf" 32 (Fake.mk_world (Fake.encode "okay") 3)) in
  exists t, nth_error (sampled (events_of o)) 1 = Some t /\ [107] = [t] /\
            llama_vocab_is_eog (LlamaLib := Fake.lib) (Some tt) t = false /\
            ~ occurs stop_marker
                (pieces (L := Fake.lib) (Some tt) (firstn 2 (sampled (events_of o)))).
Proof.
  apply (proj1 (proj2 (fed_back_tokens (L := Fake.lib) (Some "hello"%string) 20 0
                         (Fake.loaded "qwen.gguf" 32
                            (Fake.mk_world (Fake.encode "okay") 3))))
               1%nat [107] 0).
  reflexivity.
Defined.

(** Three tokens sampled out of eight allowed: the third one is the cause. *)
Lemma early_stop_has_cause_witness :
  let o := nativeGenerate (L := Fake.lib) (Some "hello"%string) 8 0
             (Fake.loaded "qwen.gguf" 32
                (Fake.mk_world (Fake.encode "Hi" ++ [Fake.eos; 65]) 10)) in
  let ts := sampled (events_of o) in
  exists t, nth_error ts 2 = Some t /\
    (llama_vocab_is_eog (LlamaLib := Fake.lib) (Some tt) t = true \/
     llama_vocab_is_eog (LlamaLib := Fake.lib) (Some tt) t = false /\
     occurs stop_marker (pieces (L := Fake.lib) (Some tt) ts) \/
     exists rc, nth_error (decodes (events_of o)) 3 = Some ([t], rc) /\ rc <> 0).
Proof.
  apply (early_stop_has_cause (L := Fake.lib) (Some "hello"%string) 8 0
           (Fake.loaded "qwen.gguf" 32
              (Fake.mk_world (Fake.encode "Hi" ++ [Fake.eos; 65]) 10))
           [104; 101; 108; 108; 111]); [reflexivity | vm_compute; lia].
Defined.

(** A null prompt: it encodes to no token, and the empty batch is decoded. *)
Lemma prefill_is_encoded_prompt_witness :
  exists rc rest,
    events_of (nativeGenerate (L := Fake.lib) None 8 0
                 (Fake.loaded "qwen.gguf" 32 (Fake.mk_world [72; 105] 10))) =
    [EvMemoryClear (L := Fake.lib) tt true] ++
    EvTokenize (L := Fake.lib) (Some tt) "" 32 true true 0 ::
    EvDecode (L := Fake.lib) ("qwen.gguf"%string, 32) [] rc :: rest.
Proof.
  apply (prefill_is_encoded_prompt (L := Fake.lib) None 8 0
           (Fake.loaded "qwen.gguf" 32 (Fake.mk_world [72; 105] 10))
           ("qwen.gguf"%string, 32) "qwen.gguf"%string);
    [reflexivity .. | vm_compute; discriminate].
Defined.

(** [nativeFree] on a loaded engine: context, model, backend. *)
Lemma free_releases_all_witness :
  let o := run_calls (L := Fake.lib)
             [CallInit; CallLoadModel (Some "a.gguf"%string) 4 32]
             (initial (L := Fake.lib) (Fake.mk_world [] 0)) in
  let o' := nativeFree (state_of o) in
  events_of o' = [EvContextFree (L := Fake.lib) ("a.gguf"%string, 32);
                  EvModelFree (L := Fake.lib) "a.gguf"%string; EvBackendFree] /\
  live_models (events_of o ++ events_of o') = 0 /\
  live_contexts (events_of o ++ events_of o') = 0.
Proof.
  destruct (free_releases_all (L := Fake.lib) (Fake.mk_world [] 0)
              [CallInit; CallLoadModel (Some "a.gguf"%string) 4 32])
    as (_ & _ & _ & _ & H1 & H2).
  split; [reflexivity | split; assumption].
Defined.

(** [nativeFree] twice on a loaded engine. *)
Lemma free_twice_frees_once_witness :
  let o1 := nativeFree (Fake.loaded "a.gguf" 32 (Fake.mk_world [] 0)) in
  events_of (nativeFree (state_of o1)) = [EvBackendFree (L := Fake.lib)].
Proof.
  exact (proj1 (free_twice_frees_once (L := Fake.lib)
                  (Fake.loaded "a.gguf" 32 (Fake.mk_world [] 0)))).
Defined.

(** A call that builds a chain: the chain is there, and freed last. *)
Lemma sampler_chain_lifecycle_witness :
  let evs := events_of (nativeGenerate (L := Fake.lib) (Some "hello"%string) 8 0
                          (Fake.loaded "qwen.gguf" 32
                             (Fake.mk_world (Fake.encode "Hi" ++ [Fake.eos; 65]) 10))) in
  exists pre s s1 s2 body c,
    evs = pre ++ chain_setup (L := Fake.lib) 0 s s1 s2 ++ body ++ [EvSamplerFree s] /\
    Forall (fun e => ~ sampler_admin e) pre /\ sampled pre = [] /\
    Forall (loop_event s c) body.
Proof.
  destruct (sampler_chain_lifecycle (L := Fake.lib) (Some "hello"%string) 8 0
              (Fake.loaded "qwen.gguf" 32
                 (Fake.mk_world (Fake.encode "Hi" ++ [Fake.eos; 65]) 10)))
    as [[_ H]|H]; [vm_compute in H; discriminate H | exact H].
Defined.

